(** * SimGrid SURF interface and S4U engine surface: a shallow embedding

    This development embeds the functions of [src/surf/surf_interface.cpp]
    and the inline templates of [include/simgrid/s4u/Engine.hpp] as Rocq
    functions and proves the properties their specification states.

    Conventions of the embedding.
    - [std::string] and [const char*] values are Rocq strings; they are
      taken without an embedded NUL, so [c_str()] is the identity and the
      [%s] directive prints the whole string.
    - [int] values are integers of [Z]; the narrowing of a [ptrdiff_t] to
      [int] is written out as a wrap-around on 32 bits.
    - A call that ends in [xbt_die] or [abort()] never returns: it is the
      [Die] case of [result], carrying the diagnostic.
    - The global variables of the translation unit are the fields of one
      [state] record that every function threads explicitly.
    - Collaborators that live outside the files at hand ([xbt_init],
      [sg_config_init], [tmgr_finalize], ...) are the methods of a class
      the functions are parameterized by; constants that live outside
      (the version macros, the C library's [fopen], the class hierarchy
      behind [dynamic_cast]) are variables of a section. *)

From Stdlib Require Import ZArith Ascii String List Lia Floats DecimalString.
From Stdlib Require DecimalZ DecimalPos.
From stdpp Require Import gmap strings list.

Open Scope Z_scope.

(** ** Calls that may abort the process *)

Inductive result (A : Type) : Type :=
| Ret (a : A)
| Die (msg : string).
Arguments Ret {A} a.
Arguments Die {A} msg.

Definition returns {A : Type} (r : result A) : bool :=
  match r with Ret _ => true | Die _ => false end.

(** ** 32-bit [int] *)

Definition INT_MAX : Z := 2147483647.

(** Conversion of a wider integer to [int]: reduction modulo 2^32 into the
    signed range. *)
Definition to_int (z : Z) : Z := (z + 2^31) mod 2^32 - 2^31.

(** ** Model descriptions and their catalogs *)

Module ModelTable.

(** The initializers the catalogs point to ([void_f_void_t]). *)
Inductive void_f_void_t : Type :=
| surf_network_model_init_LegrandVelho
| surf_network_model_init_Constant
| surf_network_model_init_SMPI
| surf_network_model_init_IB
| surf_network_model_init_CM02
| surf_network_model_init_NS3
| surf_cpu_model_init_Cas01
| surf_host_model_init_current_default
| surf_host_model_init_compound
| surf_host_model_init_ptask_L07
| surf_disk_model_init_default
| surf_storage_model_init_default.

(** [surf_model_description_t]: a name, a description and an initializer;
    [None] is the null function pointer. *)
Record surf_model_description_t : Type := {
  name : string;
  description : string;
  model_init_preparse : option void_f_void_t
}.

Definition table_t : Type := list surf_model_description_t.

Definition surf_network_model_description : table_t := [
  {| name := "LV08";
     description := "Realistic network analytic model (slow-start modeled by multiplying latency by 13.01, bandwidth by .97; bottleneck sharing uses a payload of S=20537 for evaluating RTT). ";
     model_init_preparse := Some surf_network_model_init_LegrandVelho |};
  {| name := "Constant";
     description := "Simplistic network model where all communication take a constant time (one second). This model provides the lowest realism, but is (marginally) faster.";
     model_init_preparse := Some surf_network_model_init_Constant |};
  {| name := "SMPI";
     description := "Realistic network model specifically tailored for HPC settings (accurate modeling of slow start with correction factors on three intervals: < 1KiB, < 64 KiB, >= 64 KiB)";
     model_init_preparse := Some surf_network_model_init_SMPI |};
  {| name := "IB";
     description := "Realistic network model specifically tailored for HPC settings, with Infiniband contention model";
     model_init_preparse := Some surf_network_model_init_IB |};
  {| name := "CM02";
     description := "Legacy network analytic model (Very similar to LV08, but without corrective factors. The timings of small messages are thus poorly modeled).";
     model_init_preparse := Some surf_network_model_init_CM02 |};
  {| name := "ns-3";
     description := "Network pseudo-model using the ns-3 tcp model instead of an analytic model";
     model_init_preparse := Some surf_network_model_init_NS3 |}
].

Definition surf_cpu_model_description : table_t := [
  {| name := "Cas01";
     description := "Simplistic CPU model (time=size/power).";
     model_init_preparse := Some surf_cpu_model_init_Cas01 |}
].

Definition surf_host_model_description : table_t := [
  {| name := "default";
     description := "Default host model. Currently, CPU:Cas01 and network:LV08 (with cross traffic enabled)";
     model_init_preparse := Some surf_host_model_init_current_default |};
  {| name := "compound";
     description := "Host model that is automatically chosen if you change the network and CPU models";
     model_init_preparse := Some surf_host_model_init_compound |};
  {| name := "ptask_L07";
     description := "Host model somehow similar to Cas01+CM02 but allowing parallel tasks";
     model_init_preparse := Some surf_host_model_init_ptask_L07 |}
].

Definition surf_optimization_mode_description : table_t := [
  {| name := "Lazy";
     description := "Lazy action management (partial invalidation in lmm + heap in action remaining).";
     model_init_preparse := None |};
  {| name := "TI";
     description := "Trace integration. Highly optimized mode when using availability traces (only available for the Cas01 CPU model for now).";
     model_init_preparse := None |};
  {| name := "Full";
     description := "Full update of remaining and variables. Slow but may be useful when debugging.";
     model_init_preparse := None |}
].

Definition surf_disk_model_description : table_t := [
  {| name := "default";
     description := "Simplistic disk model.";
     model_init_preparse := Some surf_disk_model_init_default |}
].

Definition surf_storage_model_description : table_t := [
  {| name := "default";
     description := "Simplistic storage model.";
     model_init_preparse := Some surf_storage_model_init_default |}
].

(** [std::find_if]: the position of the first element satisfying [p], or
    the length of the sequence (the [end()] iterator) when there is none. *)
Fixpoint find_if {A : Type} (p : A -> bool) (l : list A) : nat :=
  match l with
  | [] => O
  | x :: l' => if p x then O else S (find_if p l')
  end.

(** The loop that builds [name_list]: the state is the pair of [sep] and
    [name_list]; one iteration appends [sep + item.name] and sets [sep]. *)
Definition name_list_step (acc : string * string) (item : surf_model_description_t)
  : string * string :=
  let '(sep, name_list) := acc in
  (", ", name_list +:+ (sep +:+ name item)).

Definition build_name_list (table : table_t) : string :=
  snd (fold_left name_list_step table ("", "")).

Definition find_model_description (table : table_t) (nm : string) : result Z :=
  let pos := find_if (fun item => String.eqb (name item) nm) table in
  if negb (Nat.eqb pos (length table)) then
    Ret (to_int (Z.of_nat pos))
  else if Nat.eqb (length table) 0 then
    Die "No model is valid! This is a bug."
  else
    Die ("Model '" +:+ nm +:+ "' is invalid! Valid models are: "
         +:+ build_name_list table +:+ ".").

(** The names of a catalog, in catalog order. *)
Definition names (table : table_t) : list string := map name table.

(** What the specification calls the enumeration of the valid names:
    the names of the catalog in order, separated by a comma and a space. *)
Definition comma_separated (l : list string) : string := String.concat ", " l.

(** The catalogs of the program. *)
Definition program_catalogs : list table_t := [
  surf_network_model_description; surf_cpu_model_description;
  surf_host_model_description; surf_optimization_mode_description;
  surf_disk_model_description; surf_storage_model_description
].

(** The catalog of the specification's example, to which the name C is
    foreign. *)
Definition catalog_AB : table_t := [
  {| name := "A"; description := ""; model_init_preparse := None |};
  {| name := "B"; description := ""; model_init_preparse := None |}
].

End ModelTable.

(** ** The version contract *)

Module Version.

(** How a call ends: it returns to its caller, or [abort()] was called. *)
Inductive ending : Type := Returns | Aborts.

(** The [%d] directive of [fprintf]. *)
Definition pd (z : Z) : string := NilZero.string_of_int (Z.to_int z).

Definition nl : string := String (Ascii.ascii_of_nat 10) "".

(** [%d.%d.%d] *)
Definition dotted (a b c : Z) : string :=
  pd a +:+ "." +:+ pd b +:+ "." +:+ pd c.

Section Check.

(** The macros of [src/simgrid/version.h]: the version of the library. *)
Variables SIMGRID_VERSION_MAJOR SIMGRID_VERSION_MINOR SIMGRID_VERSION_PATCH : Z.

(** [sg_version_check]: the arguments are the version the caller was
    compiled with. The result is what was written to [stderr], and how the
    call ended. *)
Definition sg_version_check (lib_version_major lib_version_minor lib_version_patch : Z)
  : list string * ending :=
  if negb (Z.eqb lib_version_major SIMGRID_VERSION_MAJOR)
     || negb (Z.eqb lib_version_minor SIMGRID_VERSION_MINOR) then
    (["FATAL ERROR: Your program was compiled with SimGrid version "
        +:+ dotted lib_version_major lib_version_minor lib_version_patch
        +:+ ", and then linked against SimGrid "
        +:+ dotted SIMGRID_VERSION_MAJOR SIMGRID_VERSION_MINOR SIMGRID_VERSION_PATCH
        +:+ ". Please fix this." +:+ nl],
     Aborts)
  else if negb (Z.eqb lib_version_patch SIMGRID_VERSION_PATCH) then
    if Z.ltb 89 SIMGRID_VERSION_PATCH || Z.ltb 89 lib_version_patch then
      (["FATAL ERROR: Your program was compiled with SimGrid version "
          +:+ dotted lib_version_major lib_version_minor lib_version_patch
          +:+ ", and then linked against SimGrid "
          +:+ dotted SIMGRID_VERSION_MAJOR SIMGRID_VERSION_MINOR SIMGRID_VERSION_PATCH
          +:+ ". " +:+ nl
          +:+ "One of them is a development version, and should not be mixed with the stable release. Please fix this."
          +:+ nl],
       Aborts)
    else
      (["Warning: Your program was compiled with SimGrid version "
          +:+ dotted lib_version_major lib_version_minor lib_version_patch
          +:+ ", and then linked against SimGrid "
          +:+ dotted SIMGRID_VERSION_MAJOR SIMGRID_VERSION_MINOR SIMGRID_VERSION_PATCH
          +:+ ". Proceeding anyway." +:+ nl],
       Returns)
  else
    ([], Returns).

(** [sg_version_get] *)
Definition sg_version_get : Z * Z * Z :=
  (SIMGRID_VERSION_MAJOR, SIMGRID_VERSION_MINOR, SIMGRID_VERSION_PATCH).

End Check.

(** The three ways the check can end, as the specification names them. *)
Inductive verdict : Type := Silent | Warning | Fatal.

Definition verdict_of (r : list string * ending) : verdict :=
  match r with
  | ([], Returns) => Silent
  | (_ :: _, Returns) => Warning
  | (_, Aborts) => Fatal
  end.

End Version.

(** ** Opening a data file along the search path *)

Module Files.

Section Open.

(** [FILE] is the type of open streams. [fopen name mode] is the C library
    call on the file system as it is when [surf_fopen] is entered; [None] is
    the null pointer. An [fopen] that fails leaves the file system as it
    was, and [surf_fopen] returns at the first one that succeeds, so one
    oracle serves all the calls of a run of [surf_fopen]. *)
Variable FILE : Type.
Variable fopen : string -> string -> option FILE.

(** [is_absolute_file_path], outside of Windows: [file_path.c_str()[0] == '/'];
    on the empty string the character read is the terminating NUL. *)
Definition is_absolute_file_path (file_path : string) : bool :=
  match file_path with
  | EmptyString => false
  | String c _ => Ascii.eqb c "/"%char
  end.

(** The loop of [surf_fopen] over the elements of [surf_path]. *)
Fixpoint search_path (path : list string) (name mode : string) : option FILE :=
  match path with
  | [] => None
  | path_elm :: rest =>
      let buff := path_elm +:+ "/" +:+ name in
      match fopen buff mode with
      | Some file => Some file
      | None => search_path rest name mode
      end
  end.

Definition surf_fopen (surf_path : list string) (name mode : string) : option FILE :=
  if is_absolute_file_path name then fopen name mode
  else search_path surf_path name mode.

End Open.

Arguments search_path {FILE} fopen path name mode.
Arguments surf_fopen {FILE} fopen surf_path name mode.

(** A file system for examples: open streams are numbered, and two data
    files exist, one of them under the second element of the search path. *)
Definition example_fopen (name mode : string) : option nat :=
  if String.eqb name "/etc/platform.xml" then Some 3%nat
  else if String.eqb name "share/trace.txt" then Some 4%nat
  else None.

Definition example_surf_path : list string := ["."; "share"; "/usr/share"].

End Files.

(** ** The filtered walk over the tree of network zones *)

Module NetZones.

Section Walk.

(** [Impl] stands for the objects behind [NetZone::get_impl()], of static
    type [kernel::routing::NetZoneImpl*]; [T] is the template argument and
    [dynamic_cast] is [dynamic_cast<T*>], [None] being the null pointer. *)
Variables Impl T : Type.
Variable dynamic_cast : Impl -> option T.

(** [s4u::NetZone]: its implementation and its children. *)
#[warnings="-register-all"] Inductive NetZone : Type :=
| Zone (impl : Impl) (children : list NetZone).

(** Induction on a zone, with the property available for all its children. *)
Fixpoint NetZone_children_ind (P : NetZone -> Prop)
    (step : forall impl children, Forall P children -> P (Zone impl children))
    (z : NetZone) : P z :=
  match z with
  | Zone impl children =>
      step impl children
        ((fix all (l : list (NetZone)) : Forall P l :=
            match l with
            | [] => @List.Forall_nil _ P
            | c :: l' => @List.Forall_cons _ P c l' (NetZone_children_ind P step c) (all l')
            end) children)
  end.

Definition get_impl (z : NetZone) : Impl :=
  match z with Zone impl _ => impl end.

Definition get_children (z : NetZone) : list NetZone :=
  match z with Zone _ children => children end.

(** [whereto->push_back(elem_impl)] when the cast is not null. *)
Definition push_if_cast (elem : NetZone) (whereto : list T) : list T :=
  match dynamic_cast (get_impl elem) with
  | Some elem_impl => whereto ++ [elem_impl]
  | None => whereto
  end.

Fixpoint get_filtered_netzones_recursive (current : NetZone) (whereto : list T) : list T :=
  match current with
  | Zone _ children =>
      fold_left
        (fun whereto elem =>
           push_if_cast elem (get_filtered_netzones_recursive elem whereto))
        children whereto
  end.

(** [Engine::get_filtered_netzones], given the value of [get_netzone_root()]. *)
Definition get_filtered_netzones (netzone_root : NetZone) : list T :=
  get_filtered_netzones_recursive netzone_root [].

(** The nodes of a tree, the root first. *)
Fixpoint nodes (z : NetZone) : list NetZone :=
  match z with
  | Zone _ children => z :: flat_map nodes children
  end.

(** The nodes strictly below the root. *)
Definition descendants (z : NetZone) : list NetZone :=
  flat_map nodes (get_children z).

(** The nodes of a list of zones whose implementation is of the requested
    category, as objects of that category. *)
Definition matching (l : list NetZone) : list T :=
  omap (fun z => dynamic_cast (get_impl z)) l.

(** What the walk appends below a zone: for each child in turn, what it
    appends below the child, then the child itself when it casts. *)
Fixpoint collected (z : NetZone) : list T :=
  match z with
  | Zone _ children =>
      flat_map (fun c => collected c ++ option_list (dynamic_cast (get_impl c)))
        children
  end.

End Walk.

Arguments Zone {Impl} impl children.
Arguments get_impl {Impl} z.
Arguments get_children {Impl} z.
Arguments nodes {Impl} z.
Arguments descendants {Impl} z.
Arguments get_filtered_netzones_recursive {Impl T} dynamic_cast current whereto.
Arguments get_filtered_netzones {Impl T} dynamic_cast netzone_root.
Arguments matching {Impl T} dynamic_cast l.
Arguments push_if_cast {Impl T} dynamic_cast elem whereto.
Arguments collected {Impl T} dynamic_cast z.
Arguments NetZone_children_ind {Impl} P step z.

(** A cast that never fails, as for the base class of all zones. *)
Definition example_base_cast (impl : string * bool) : option string :=
  Some (fst impl).

(** Zones for examples. An implementation object is a name and whether its
    class derives from the requested one; the cast yields the name. *)
Definition example_cast (impl : string * bool) : option string :=
  if snd impl then Some (fst impl) else None.

(** A platform made of one zone, of the requested class. *)
Definition lone_root : NetZone (string * bool) := Zone ("world", true) [].

(** A platform of three levels; the root, one site and two racks are of the
    requested class. *)
Definition three_levels : NetZone (string * bool) :=
  Zone ("world", true)
    [ Zone ("site1", true) [ Zone ("rack1", false) []; Zone ("rack2", true) [] ];
      Zone ("site2", false) [ Zone ("rack3", true) [] ] ].

End NetZones.

(** ** Name-keyed registries of the engine *)

Module Registry.

(** Modelled from the spec: the registries behind [Engine::host_register],
    [Engine::host_unregister], [Engine::host_by_name] and their siblings for
    links and storages are defined in [src/s4u/s4u_Engine.cpp] and
    [src/kernel/EngineImpl.hpp], which are not at hand; only their
    declarations are. A registry maps a unique name to one resource and
    enumerates its entries in registration order, so it is a list of
    (name, resource) pairs to which registration appends. *)
Definition registry (V : Type) : Type := list (string * V).

Section Ops.

Context {V : Type}.

Definition has_name (name : string) (entry : string * V) : bool :=
  String.eqb (fst entry) name.

(** Modelled from the spec: the non-throwing query, [by_name_or_null];
    [None] is the empty result. *)
Definition by_name_or_null (name : string) (reg : registry V) : option V :=
  option_map snd (List.find (has_name name) reg).

(** Modelled from the spec: the throwing query, [by_name], fatal when the
    name is absent. *)
Definition by_name (name : string) (reg : registry V) : result V :=
  match by_name_or_null name reg with
  | Some r => Ret r
  | None => Die ("Not found: '" +:+ name +:+ "'")
  end.

(** Modelled from the spec: [register(name, resource)] fails if [name] is
    already present. *)
Definition register (name : string) (r : V) (reg : registry V) : result (registry V) :=
  match by_name_or_null name reg with
  | Some _ => Die ("Already registered: '" +:+ name +:+ "'")
  | None => Ret (reg ++ [(name, r)])
  end.

(** Modelled from the spec: [unregister(name)] fails if [name] is absent. *)
Definition unregister (name : string) (reg : registry V) : result (registry V) :=
  match by_name_or_null name reg with
  | Some _ => Ret (List.filter (fun entry => negb (has_name name entry)) reg)
  | None => Die ("Not registered: '" +:+ name +:+ "'")
  end.

(** Modelled from the spec: [count()], the number of current entries. *)
Definition count (reg : registry V) : nat := length reg.

(** Modelled from the spec: [all()], the current entries in registration
    order. *)
Definition all (reg : registry V) : list V := map snd reg.

(** The names of a registry, in registration order. *)
Definition keys (reg : registry V) : list string := map fst reg.

(** Whether the non-throwing query finds the name. *)
Definition is_registered (name : string) (reg : registry V) : bool :=
  match by_name_or_null name reg with Some _ => true | None => false end.

(** A call that changes a registry. *)
Inductive call : Type :=
| CallRegister (name : string) (r : V)
| CallUnregister (name : string).

Definition apply_call (c : call) (reg : registry V) : result (registry V) :=
  match c with
  | CallRegister name r => register name r reg
  | CallUnregister name => unregister name reg
  end.

(** A sequence of calls in which a failing call is reported to its caller
    and leaves the registry as it was. *)
Definition step (reg : registry V) (c : call) : registry V :=
  match apply_call c reg with
  | Ret reg' => reg'
  | Die _ => reg
  end.

Definition run (calls : list call) (reg : registry V) : registry V :=
  fold_left step calls reg.

(** A sequence of calls in which the first failing call ends the process. *)
Fixpoint run_strict (calls : list call) (reg : registry V) : result (registry V) :=
  match calls with
  | [] => Ret reg
  | c :: rest =>
      match apply_call c reg with
      | Ret reg' => run_strict rest reg'
      | Die msg => Die msg
      end
  end.

Definition is_register_of (name : string) (c : call) : bool :=
  match c with CallRegister n _ => String.eqb n name | CallUnregister _ => false end.

Definition is_unregister_of (name : string) (c : call) : bool :=
  match c with CallRegister _ _ => false | CallUnregister n => String.eqb n name end.

(** The number of registrations and of unregistrations of a name in a
    sequence of calls. *)
Definition registrations (name : string) (calls : list call) : nat :=
  length (List.filter (is_register_of name) calls).

Definition unregistrations (name : string) (calls : list call) : nat :=
  length (List.filter (is_unregister_of name) calls).

(** [name] is currently registered after [calls]: some call registers it
    and no later call unregisters it. *)
Definition currently_registered (name : string) (calls : list call) : Prop :=
  exists before r after,
    calls = before ++ CallRegister name r :: after /\
    forall c, In c after -> is_unregister_of name c = false.

End Ops.

Arguments call V : clear implicits.

(** Calls for examples: two hosts are registered, the first is removed. *)
Definition example_calls : list (call positive) :=
  [CallRegister "alice" 1%positive; CallRegister "bob" 2%positive;
   CallUnregister "alice"].

End Registry.

(** ** The process-wide state, kernel initialization and shutdown *)

Module Kernel.

Import Registry.

(** Heap objects are named by their address. *)
Definition Model : Type := positive.
Definition Host : Type := positive.
Definition Link : Type := positive.
Definition Storage : Type := positive.

(** [kernel::resource::StorageType]: the two property maps it owns. *)
Record StorageType : Type := {
  properties : gmap string string;
  model_properties : gmap string string
}.

(** Modelled from the spec: the engine object behind [Engine::instance_];
    its class is defined in [src/s4u/s4u_Engine.cpp], which is not at hand.
    It owns the registries of hosts, links and storages. *)
Record Engine : Type := {
  hosts_ : registry Host;
  links_ : registry Link;
  storages_ : registry Storage
}.

Definition empty_engine : Engine :=
  {| hosts_ := []; links_ := []; storages_ := [] |}.

Inductive resource_kind : Type := AHost | ALink | AStorage.

(** What is destroyed, in the order in which it is. *)
Inductive event : Type :=
| Released (kind : resource_kind) (name : string)
| DeletedStorageType (id : string)
| DeletedModel (model : Model).

(** The globals of the process that the functions below read or write,
    and what their effects are observed on. [X] is the state of the
    collaborators whose code is elsewhere (xbt, the configuration, the model
    checker, the trace manager, the platform parser).
    - [storage_types] is a [std::map]: its entries are listed in the order
      in which a range-for visits them.
    - [live_models] is the set of the addresses that hold a [Model] object
      that was created and not yet deleted.
    - [destroyed] records the destructions, the oldest first. *)
Record state (X : Type) : Type := {
  NOW : float;
  xbt_initialized : Z;
  all_existing_models : list Model;
  storage_types : list (string * StorageType);
  surf_path : list string;
  instance_ : option Engine;
  live_models : gset Model;
  destroyed : list event;
  ext : X
}.
Arguments NOW {X} s.
Arguments xbt_initialized {X} s.
Arguments all_existing_models {X} s.
Arguments storage_types {X} s.
Arguments surf_path {X} s.
Arguments instance_ {X} s.
Arguments live_models {X} s.
Arguments destroyed {X} s.
Arguments ext {X} s.

(** The collaborators of this translation unit. Each may read and write any
    global. [xbt_init] and [sg_config_init] also consume command-line
    arguments. *)
Class Externals (X : Type) : Type := {
  xbt_init : list string -> state X -> list string * state X;
  sg_config_init : list string -> state X -> list string * state X;
  MC_is_active : state X -> bool;
  MC_memory_init : state X -> state X;
  tmgr_finalize : state X -> state X;
  sg_platf_exit : state X -> state X
}.

Section Functions.

Context {X : Type} {E : Externals X}.

Definition set_NOW (v : float) (s : state X) : state X :=
  {| NOW := v; xbt_initialized := xbt_initialized s;
     all_existing_models := all_existing_models s;
     storage_types := storage_types s; surf_path := surf_path s;
     instance_ := instance_ s; live_models := live_models s;
     destroyed := destroyed s; ext := ext s |}.

Definition set_instance_ (v : option Engine) (s : state X) : state X :=
  {| NOW := NOW s; xbt_initialized := xbt_initialized s;
     all_existing_models := all_existing_models s;
     storage_types := storage_types s; surf_path := surf_path s;
     instance_ := v; live_models := live_models s;
     destroyed := destroyed s; ext := ext s |}.

Definition set_live_models (v : gset Model) (s : state X) : state X :=
  {| NOW := NOW s; xbt_initialized := xbt_initialized s;
     all_existing_models := all_existing_models s;
     storage_types := storage_types s; surf_path := surf_path s;
     instance_ := instance_ s; live_models := v;
     destroyed := destroyed s; ext := ext s |}.

Definition set_destroyed (v : list event) (s : state X) : state X :=
  {| NOW := NOW s; xbt_initialized := xbt_initialized s;
     all_existing_models := all_existing_models s;
     storage_types := storage_types s; surf_path := surf_path s;
     instance_ := instance_ s; live_models := live_models s;
     destroyed := v; ext := ext s |}.

Definition record (e : event) (s : state X) : state X :=
  set_destroyed (destroyed s ++ [e]) s.

(** [surf_get_clock] *)
Definition surf_get_clock (s : state X) : float := NOW s.

(** [surf_init] *)
Definition surf_init (args : list string) (s : state X) : list string * state X :=
  if 0 <? xbt_initialized s then (args, s)
  else
    let '(args1, s1) := xbt_init args s in
    let '(args2, s2) := sg_config_init args1 s1 in
    if MC_is_active s2 then (args2, MC_memory_init s2) else (args2, s2).

(** The events of releasing every entry of a registry, in its order. *)
Definition releases {V : Type} (kind : resource_kind) (reg : registry V) : list event :=
  map (fun entry => Released kind (fst entry)) reg.

(** Modelled from the spec: what the engine releases when it is finalized:
    every registered host, link and storage. *)
Definition engine_releases (e : Engine) : list event :=
  releases AHost (hosts_ e) ++ releases ALink (links_ e)
    ++ releases AStorage (storages_ e).

(** Modelled from the spec: [Engine::shutdown()], defined in
    [src/s4u/s4u_Engine.cpp], which is not at hand. It finalizes the engine:
    every registered resource is deregistered and released, and there is no
    instance afterwards. Without an instance it does nothing. *)
Definition Engine_shutdown (s : state X) : state X :=
  match instance_ s with
  | None => s
  | Some e => set_instance_ None (set_destroyed (destroyed s ++ engine_releases e) s)
  end.

(** Modelled from the spec: the constructor of [Engine], defined in
    [src/s4u/s4u_Engine.cpp], which is not at hand. Construction while an
    instance is live is an error; otherwise the new engine, with empty
    registries, becomes the instance. *)
Definition Engine_new (s : state X) : result (state X) :=
  match instance_ s with
  | Some _ => Die "It is currently forbidden to create more than one instance of s4u::Engine"
  | None => Ret (set_instance_ (Some empty_engine) s)
  end.

(** Modelled from the spec: [Engine::get_instance()]; [None] is null. *)
Definition get_instance (s : state X) : option Engine := instance_ s.

(** One iteration of the first loop of [surf_exit]: the three [delete] of
    an entry of [storage_types]. *)
Definition delete_storage_type (s : state X) (e : string * StorageType) : state X :=
  record (DeletedStorageType (fst e)) s.

(** One iteration of the second loop of [surf_exit]: [delete model]. *)
Definition delete_model (s : state X) (model : Model) : state X :=
  record (DeletedModel model) (set_live_models (live_models s ∖ {[model]}) s).

(** [surf_exit] *)
Definition surf_exit (s : state X) : state X :=
  let s1 := Engine_shutdown s in
  let s2 := fold_left delete_storage_type (storage_types s1) s1 in
  let s3 := fold_left delete_model (all_existing_models s2) s2 in
  let s4 := tmgr_finalize s3 in
  let s5 := sg_platf_exit s4 in
  set_NOW 0%float s5.

(** A collaborator that leaves the models, their list and the record of
    destructions alone. *)
Definition keeps_models (f : state X -> state X) : Prop :=
  forall s,
    all_existing_models (f s) = all_existing_models s /\
    live_models (f s) = live_models s /\
    destroyed (f s) = destroyed s.

(** A collaborator that leaves the engine's instance alone. *)
Definition keeps_instance (f : state X -> state X) : Prop :=
  forall s, instance_ (f s) = instance_ s.

(** The number of times a model was deleted in a record of destructions. *)
Definition is_deletion_of (model : Model) (ev : event) : bool :=
  match ev with
  | DeletedModel m => Pos.eqb m model
  | _ => false
  end.

Definition deletions_of (model : Model) (trace : list event) : nat :=
  length (List.filter (is_deletion_of model) trace).

(** Calls on the life cycle of the engine. *)
Inductive lifecycle_call : Type := Construct | Shutdown.

(** One call, on the state and on the number of [Engine] objects that exist:
    a successful construction makes one, a shutdown destroys the instance
    when there is one. A failed construction ends the process. *)
Definition lifecycle_step (c : lifecycle_call) (sn : state X * nat)
  : result (state X * nat) :=
  let '(s, n) := sn in
  match c with
  | Construct =>
      match Engine_new s with
      | Ret s' => Ret (s', S n)
      | Die msg => Die msg
      end
  | Shutdown =>
      match instance_ s with
      | Some _ => Ret (Engine_shutdown s, Nat.pred n)
      | None => Ret (Engine_shutdown s, n)
      end
  end.

Fixpoint lifecycle (calls : list lifecycle_call) (sn : state X * nat)
  : result (state X * nat) :=
  match calls with
  | [] => Ret sn
  | c :: rest =>
      match lifecycle_step c sn with
      | Ret sn' => lifecycle rest sn'
      | Die msg => Die msg
      end
  end.

(** The engine objects that exist are the instance, if any. *)
Definition counts_instance (sn : state X * nat) : Prop :=
  snd sn = match instance_ (fst sn) with Some _ => 1%nat | None => 0%nat end.

End Functions.

(** Modelled from the spec: [Engine::host_register], declared in
    [Engine.hpp] and defined in [src/s4u/s4u_Engine.cpp], which is not at
    hand: registration in the engine's registry of hosts. *)
Definition host_register (name : string) (host : Host) (e : Engine) : result Engine :=
  match register name host (hosts_ e) with
  | Ret reg => Ret {| hosts_ := reg; links_ := links_ e; storages_ := storages_ e |}
  | Die msg => Die msg
  end.

(** Modelled from the spec: [Engine::host_unregister], declared in
    [Engine.hpp] only. *)
Definition host_unregister (name : string) (e : Engine) : result Engine :=
  match unregister name (hosts_ e) with
  | Ret reg => Ret {| hosts_ := reg; links_ := links_ e; storages_ := storages_ e |}
  | Die msg => Die msg
  end.

(** Modelled from the spec: [Engine::host_by_name], declared in
    [Engine.hpp] only: the throwing query on the registry of hosts. *)
Definition host_by_name (name : string) (e : Engine) : result Host :=
  by_name name (hosts_ e).

(** Modelled from the spec: [Engine::host_by_name_or_null], declared in
    [Engine.hpp] only: the non-throwing query on the registry of hosts. *)
Definition host_by_name_or_null (name : string) (e : Engine) : option Host :=
  by_name_or_null name (hosts_ e).

(** A process that has just started: the clock is 0, nothing is
    initialized, there is no model and no engine. *)
Definition initial_state {X : Type} (x : X) : state X :=
  {| NOW := 0%float; xbt_initialized := 0; all_existing_models := [];
     storage_types := []; surf_path := []; instance_ := None;
     live_models := ∅; destroyed := []; ext := x |}.

(** Collaborators for examples. Their own state counts the calls they
    received; [xbt_init] counts its calls in [xbt_initialized] as well. *)
Definition count_call {X : Type} (f : X -> X) (s : state X) : state X :=
  {| NOW := NOW s; xbt_initialized := xbt_initialized s;
     all_existing_models := all_existing_models s;
     storage_types := storage_types s; surf_path := surf_path s;
     instance_ := instance_ s; live_models := live_models s;
     destroyed := destroyed s; ext := f (ext s) |}.

Definition bump_xbt_initialized {X : Type} (s : state X) : state X :=
  {| NOW := NOW s; xbt_initialized := xbt_initialized s + 1;
     all_existing_models := all_existing_models s;
     storage_types := storage_types s; surf_path := surf_path s;
     instance_ := instance_ s; live_models := live_models s;
     destroyed := destroyed s; ext := ext s |}.

Definition example_externals : Externals nat :=
  {| xbt_init := fun args s => (args, bump_xbt_initialized (count_call S s));
     sg_config_init := fun args s => (args, count_call S s);
     MC_is_active := fun _ => false;
     MC_memory_init := count_call S;
     tmgr_finalize := count_call S;
     sg_platf_exit := count_call S |}.

(** A process in the middle of a simulation: the clock has advanced, three
    models exist, and the engine has two hosts and a link. *)
Definition example_state : state nat :=
  {| NOW := 42.5%float; xbt_initialized := 1;
     all_existing_models := [1; 2; 3]%positive;
     storage_types := [("single_HDD", {| properties := ∅; model_properties := ∅ |})];
     surf_path := ["."];
     instance_ := Some {| hosts_ := [("alice", 10%positive); ("bob", 11%positive)];
                          links_ := [("backbone", 20%positive)];
                          storages_ := [] |};
     live_models := {[ 1%positive; 2%positive; 3%positive ]};
     destroyed := []; ext := O |}.

End Kernel.

(** ** Plugin descriptions *)

Module Plugins.

Import ModelTable.

(** [surf_plugin_description] is a pointer to a vector: [None] is the null
    pointer. The initializer of an entry ranges over the initializers this
    development names; no function below looks at it. *)

(** [simgrid_free_plugin_description]: [delete] of the vector (a null
    pointer included), then the pointer is null. *)
Definition simgrid_free_plugin_description (surf_plugin_description : option table_t)
  : option table_t :=
  None.

(** [simgrid_add_plugin_description]: the vector is created on first use,
    then the entry is put at its end. *)
Definition simgrid_add_plugin_description (name description : string)
    (init_fun : option void_f_void_t) (surf_plugin_description : option table_t)
  : option table_t :=
  let vector :=
    match surf_plugin_description with
    | None => []
    | Some vector => vector
    end in
  Some (vector ++ [{| ModelTable.name := name;
                      ModelTable.description := description;
                      model_init_preparse := init_fun |}]).

(** The vector behind the pointer; the null pointer has no entry. *)
Definition entries (surf_plugin_description : option table_t) : table_t :=
  match surf_plugin_description with
  | None => []
  | Some vector => vector
  end.

(** A sequence of calls to [simgrid_add_plugin_description], the first
    call first; each call is the entry it adds. *)
Definition add_all (calls : table_t) (surf_plugin_description : option table_t)
  : option table_t :=
  fold_left
    (fun p item =>
       simgrid_add_plugin_description (ModelTable.name item)
         (ModelTable.description item) (model_init_preparse item) p)
    calls surf_plugin_description.

(** Plugins for examples. *)
Definition example_plugins : table_t := [
  {| ModelTable.name := "host_energy";
     ModelTable.description := "Cpu energy consumption.";
     model_init_preparse := None |};
  {| ModelTable.name := "link_energy";
     ModelTable.description := "Link energy consumption.";
     model_init_preparse := None |};
  {| ModelTable.name := "host_load";
     ModelTable.description := "Cpu load.";
     model_init_preparse := None |}
].

End Plugins.

(** ** The help on a catalog *)

Module Help.

Import ModelTable.

(** [model_help]: the lines that [XBT_HELP] prints, the first first. *)
Definition model_help (category : string) (table : table_t) : list string :=
  fold_left
    (fun printed item =>
       printed ++ ["  " +:+ name item +:+ ": " +:+ description item])
    table
    ["Long description of the " +:+ category
       +:+ " models accepted by this simulator:"].

End Help.

(** ** The version string of the Python module *)

Module PythonVersion.

Import Version.

(** [get_simgrid_version] of [simgrid_python.cpp]: [sg_version_get], then
    [string_printf] with ["%i.%i.%i"]. The three parameters are the version
    macros. *)
Definition get_simgrid_version
    (SIMGRID_VERSION_MAJOR SIMGRID_VERSION_MINOR SIMGRID_VERSION_PATCH : Z) : string :=
  let '(major, minor, patch) :=
    sg_version_get SIMGRID_VERSION_MAJOR SIMGRID_VERSION_MINOR SIMGRID_VERSION_PATCH in
  pd major +:+ "." +:+ pd minor +:+ "." +:+ pd patch.

(** A string without a dot. *)
Fixpoint dot_free (s : string) : bool :=
  match s with
  | EmptyString => true
  | String c s' => negb (Ascii.eqb c ".") && dot_free s'
  end.

End PythonVersion.

(** ** Opening a data file as an input stream *)

Module Streams.

Import Files.

Section Ifs.

(** [open_in name] is [std::filebuf::open] in mode [in] on a closed buffer,
    on the file system as it is when [surf_ifsopen] is entered; [None] is
    its null result. An attempt that fails leaves the file system as it
    was. *)
Variable FILE : Type.
Variable open_in : string -> option FILE.

(** What [surf_ifsopen] can observe of a [std::ifstream]: the file its
    buffer is associated with, if any, and the [failbit] of its state. No
    other bit of the state is ever set here, so [fail()] is [failbit]. *)
Record ifstream : Type := {
  rdbuf : option FILE;
  failbit : bool
}.

(** [new std::ifstream()]: no file, a good state. *)
Definition ifstream_new : ifstream := {| rdbuf := None; failbit := false |}.

Definition ifstream_is_open (fs : ifstream) : bool :=
  match rdbuf fs with Some _ => true | None => false end.

Definition ifstream_fail (fs : ifstream) : bool := failbit fs.

(** [std::ifstream::open]: the buffer refuses to open when it is already
    associated with a file; when the buffer fails, [failbit] is set and the
    rest is kept; when it succeeds, the state is cleared. *)
Definition ifstream_open (name : string) (fs : ifstream) : ifstream :=
  match rdbuf fs with
  | Some _ => {| rdbuf := rdbuf fs; failbit := true |}
  | None =>
      match open_in name with
      | Some file => {| rdbuf := Some file; failbit := false |}
      | None => {| rdbuf := None; failbit := true |}
      end
  end.

(** The loop of [surf_ifsopen] over the elements of [surf_path]. *)
Fixpoint ifs_search (path : list string) (name : string) (fs : ifstream) : ifstream :=
  match path with
  | [] => fs
  | path_elm :: rest =>
      let buff := path_elm +:+ "/" +:+ name in
      let fs' := ifstream_open buff fs in
      if negb (ifstream_fail fs') then fs' else ifs_search rest name fs'
  end.

(** [surf_ifsopen], in a build that keeps [xbt_assert]. After the attempt
    on an absolute name the function goes on with the loop. *)
Definition surf_ifsopen (surf_path : list string) (name : string) : result ifstream :=
  match name with
  | EmptyString => Die "Assertion not name.empty() failed"
  | _ =>
      let fs := ifstream_new in
      let fs := if is_absolute_file_path name then ifstream_open name fs else fs in
      Ret (ifs_search surf_path name fs)
  end.

End Ifs.

Arguments rdbuf {FILE} i.
Arguments failbit {FILE} i.
Arguments ifstream_new {FILE}.
Arguments ifstream_is_open {FILE} fs.
Arguments ifstream_fail {FILE} fs.
Arguments ifstream_open {FILE} open_in name fs.
Arguments ifs_search {FILE} open_in path name fs.
Arguments surf_ifsopen {FILE} open_in surf_path name.

(** The file system of the examples, read through a stream. *)
Definition example_open_in (name : string) : option nat := example_fopen name "r".

End Streams.

(** ** The command line handed to the engine by the Python module *)

Module PythonArgv.

(** A [char*] the constructor lambda of [simgrid_python.cpp] stores: null,
    the address of [noarg], or [&args[i].front()]. *)
Inductive char_ptr : Type :=
| nullptr
| noarg
| front_of (i : nat).

(** The C string a pointer designates, given [args]. *)
Definition c_string (args : list string) (p : char_ptr) : option string :=
  match p with
  | nullptr => None
  | noarg => Some ""
  | front_of i => nth_error args i
  end.

(** One cell of [argv]: [None] until it is written. *)
Definition cell : Type := option char_ptr.

(** [args[i].empty() ? noarg : &args[i].front()] *)
Definition arg_ptr (args : list string) (i : nat) : char_ptr :=
  match nth_error args i with
  | Some EmptyString => noarg
  | _ => front_of i
  end.

(** The body of the loop: [argv[i] = ...]. *)
Definition store_arg (args : list string) (argv : list cell) (i : nat) : list cell :=
  <[ i := Some (arg_ptr args i) ]> argv.

(** The lambda up to the call of the constructor of [Engine]: [argc], and
    [argv] with its [argc + 1] cells. *)
Definition make_argv (args : list string) : Z * list cell :=
  let argc := to_int (Z.of_nat (length args)) in
  let argv := replicate (Z.to_nat (argc + 1)) None in
  let argv := fold_left (store_arg args) (seq 0 (Z.to_nat argc)) argv in
  let argv := <[ Z.to_nat argc := Some nullptr ]> argv in
  (argc, argv).

End PythonArgv.

(** * Properties *)

(** ** Shutdown and the clock *)

Section ShutdownClock.

Import Kernel.
Context {X : Type} {E : Externals X}.

(** C3. After [surf_exit] the clock [NOW] is 0 and [surf_get_clock] returns
    0, whatever the clock was before and whatever the collaborators called
    on the way do. *)
Theorem surf_exit_resets_clock (s : state X) :
  NOW (surf_exit s) = 0%float /\ surf_get_clock (surf_exit s) = 0%float.
Proof.
  unfold surf_get_clock, surf_exit. split; reflexivity.
Qed.

End ShutdownClock.

(** ** Selecting a model by name *)

Section ModelSelection.

Import ModelTable.

Lemma to_int_small (z : Z) : 0 <= z <= INT_MAX -> to_int z = z.
Proof.
  unfold to_int, INT_MAX. intros H.
  rewrite Z.mod_small by lia. lia.
Qed.

Lemma append_assoc (a b c : string) : (a +:+ b) +:+ c = a +:+ (b +:+ c).
Proof.
  induction a as [|ch a IH]; [reflexivity|].
  change (String ch ((a +:+ b) +:+ c) = String ch (a +:+ (b +:+ c))).
  now rewrite IH.
Qed.

Lemma find_if_le {A : Type} (p : A -> bool) (l : list A) :
  (find_if p l <= length l)%nat.
Proof.
  induction l as [|x l IH]; simpl; [lia|].
  destruct (p x); lia.
Qed.

(** [find_if] stops inside the sequence exactly when some element
    satisfies the predicate. *)
Lemma find_if_found {A : Type} (p : A -> bool) (l : list A) :
  (find_if p l < length l)%nat <-> exists x, In x l /\ p x = true.
Proof.
  induction l as [|x l IH]; simpl.
  - split; [lia | intros (x & [] & _)].
  - destruct (p x) eqn:Hp.
    + split; [intros _; exists x; auto | lia].
    + rewrite <- Nat.succ_lt_mono, IH. split.
      * intros (y & Hy & Hpy). exists y; auto.
      * intros (y & [-> | Hy] & Hpy); [congruence | exists y; auto].
Qed.

(** Where [find_if] stops, the predicate holds, and it fails before. *)
Lemma find_if_first {A : Type} (p : A -> bool) (l : list A) :
  (find_if p l < length l)%nat ->
  exists x, nth_error l (find_if p l) = Some x /\ p x = true /\
    forall j y, (j < find_if p l)%nat -> nth_error l j = Some y -> p y = false.
Proof.
  induction l as [|x l IH]; simpl; [lia|].
  destruct (p x) eqn:Hp; intros Hlt.
  - exists x. repeat split; [assumption | lia].
  - destruct IH as (y & Hy & Hpy & Hbefore); [lia|].
    exists y. repeat split; try assumption.
    intros [|j] z Hj Hz; simpl in Hz.
    + congruence.
    + apply (Hbefore j); [lia | assumption].
Qed.

Lemma in_names_iff (table : table_t) (nm : string) :
  In nm (names table) <->
  exists x, In x table /\ String.eqb (name x) nm = true.
Proof.
  unfold names. rewrite in_map_iff. split.
  - intros (x & Hx & Hin). exists x. split; [assumption|].
    now apply String.eqb_eq.
  - intros (x & Hin & Hx). exists x. split; [|assumption].
    now apply String.eqb_eq.
Qed.

(** The loop over the table, from any value of [sep] and [name_list]. *)
Lemma name_list_loop (table : table_t) (sep acc : string) :
  table <> [] ->
  snd (fold_left name_list_step table (sep, acc))
  = acc +:+ sep +:+ comma_separated (names table).
Proof.
  revert sep acc. induction table as [|x t IH]; intros sep acc Hne; [congruence|].
  destruct t as [|y t].
  - reflexivity.
  - change (snd (fold_left name_list_step (y :: t)
                   (", ", acc +:+ (sep +:+ name x)))
            = acc +:+ sep +:+ (name x +:+ ", " +:+ comma_separated (names (y :: t)))).
    rewrite IH by discriminate. now rewrite !append_assoc.
Qed.

(** The list the loop builds is the catalog's names, comma-separated, in
    catalog order. *)
Lemma build_name_list_spec (table : table_t) :
  build_name_list table = comma_separated (names table).
Proof.
  destruct table as [|x t]; [reflexivity|].
  unfold build_name_list. now rewrite name_list_loop.
Qed.

(** The lookup returns exactly when the name is in the catalog. *)
Lemma find_model_description_returns (table : table_t) (nm : string) :
  returns (find_model_description table nm) = true <-> In nm (names table).
Proof.
  rewrite in_names_iff, <- find_if_found.
  unfold find_model_description.
  set (pos := find_if _ table).
  pose proof (find_if_le (fun item => String.eqb (name item) nm) table) as Hle.
  fold pos in Hle.
  destruct (Nat.eqb_spec pos (length table)) as [Heq | Hneq]; simpl.
  - destruct (Nat.eqb (length table) 0); simpl; split; (discriminate || lia).
  - split; [lia | reflexivity].
Qed.

(** C1. Selecting a name that is not in the catalog is fatal. For a
    catalog that has entries the diagnostic is the fixed sentence around the
    requested name and the names of the whole catalog, comma-separated, in
    catalog order; for the empty catalog, which has no valid name to list,
    it is a fixed sentence. In both cases the message contains the
    comma-separated list of all the valid names. *)
Theorem unknown_name_is_fatal (table : table_t) (nm : string) :
  ~ In nm (names table) ->
  exists msg,
    find_model_description table nm = Die msg /\
    (table <> [] ->
     msg = "Model '" +:+ nm +:+ "' is invalid! Valid models are: "
           +:+ comma_separated (names table) +:+ ".") /\
    (table = [] -> msg = "No model is valid! This is a bug.") /\
    exists before after,
      msg = before +:+ comma_separated (names table) +:+ after.
Proof.
  intros Hnot.
  assert (Hpos : find_if (fun item => String.eqb (name item) nm) table = length table).
  { pose proof (find_if_le (fun item => String.eqb (name item) nm) table) as Hle.
    destruct (Nat.eq_dec (find_if (fun item => String.eqb (name item) nm) table)
                (length table)) as [Heq | Hneq]; [assumption|].
    exfalso. apply Hnot, in_names_iff, find_if_found. lia. }
  unfold find_model_description. rewrite Hpos, Nat.eqb_refl. simpl.
  destruct table as [|x t].
  - eexists. split; [reflexivity|].
    split; [congruence|]. split; [reflexivity|].
    exists "", "No model is valid! This is a bug.". reflexivity.
  - cbn [length Nat.eqb]. rewrite build_name_list_spec.
    eexists. split; [reflexivity|].
    split; [reflexivity|]. split; [discriminate|].
    exists ("Model '" +:+ nm +:+ "' is invalid! Valid models are: "), ".".
    now rewrite !append_assoc.
Qed.

Lemma unknown_name_is_fatal_witness :
  ~ In "C" (names catalog_AB) /\
  exists msg,
    find_model_description catalog_AB "C" = Die msg /\
    (catalog_AB <> [] ->
     msg = "Model '" +:+ "C" +:+ "' is invalid! Valid models are: "
           +:+ comma_separated (names catalog_AB) +:+ ".") /\
    (catalog_AB = [] -> msg = "No model is valid! This is a bug.") /\
    exists before after,
      msg = before +:+ comma_separated (names catalog_AB) +:+ after.
Proof.
  assert (H : ~ In "C" (names catalog_AB)).
  { simpl. intros [H | [H | []]]; discriminate. }
  split; [exact H | exact (unknown_name_is_fatal catalog_AB "C" H)].
Defined.

(** The diagnostic of the specification's example, in full. *)
Example unknown_C_among_A_B :
  find_model_description catalog_AB "C"
  = Die "Model 'C' is invalid! Valid models are: A, B.".
Proof. reflexivity. Qed.

(** The diagnostic for a foreign network model lists the six network
    models in the order of their catalog. *)
Example unknown_network_model :
  find_model_description surf_network_model_description "Vegas"
  = Die "Model 'Vegas' is invalid! Valid models are: LV08, Constant, SMPI, IB, CM02, ns-3.".
Proof. reflexivity. Qed.

(** C6. Selecting a name that is in the catalog returns, and what it
    returns is the position of the first entry whose name is the requested
    string, character for character: no entry before it has that name. The
    lookup is a function of the catalog and the name, so a repeated
    selection yields the same entry and the same initializer. The catalog
    is one whose positions fit the [int] the lookup returns. *)
Theorem known_name_selects_first_match (table : table_t) (nm : string) :
  Z.of_nat (length table) <= INT_MAX ->
  In nm (names table) ->
  exists (i : nat) (entry : surf_model_description_t),
    find_model_description table nm = Ret (Z.of_nat i) /\
    nth_error table i = Some entry /\
    name entry = nm /\
    (forall j e, (j < i)%nat -> nth_error table j = Some e -> name e <> nm) /\
    (forall r, find_model_description table nm = Ret r ->
       option_map model_init_preparse (nth_error table (Z.to_nat r))
       = Some (model_init_preparse entry)).
Proof.
  intros Hfit Hin.
  apply in_names_iff, find_if_found in Hin.
  destruct (find_if_first _ _ Hin) as (entry & Hnth & Hname & Hbefore).
  unfold find_model_description.
  set (pos := find_if (fun item => String.eqb (name item) nm) table) in *.
  destruct (Nat.eqb_spec pos (length table)) as [Heq | _]; [lia|]. simpl.
  rewrite to_int_small by lia.
  exists pos, entry. split; [reflexivity|]. split; [assumption|].
  split; [now apply String.eqb_eq|]. split.
  - intros j e Hj He Habs. specialize (Hbefore j e Hj He).
    apply String.eqb_eq in Habs. congruence.
  - intros r Hr. injection Hr as <-. now rewrite Nat2Z.id, Hnth.
Qed.

Lemma known_name_selects_first_match_witness :
  exists (i : nat) (entry : surf_model_description_t),
    find_model_description surf_network_model_description "CM02" = Ret (Z.of_nat i) /\
    nth_error surf_network_model_description i = Some entry /\
    name entry = "CM02" /\
    (forall j e, (j < i)%nat ->
       nth_error surf_network_model_description j = Some e -> name e <> "CM02") /\
    (forall r, find_model_description surf_network_model_description "CM02" = Ret r ->
       option_map model_init_preparse
         (nth_error surf_network_model_description (Z.to_nat r))
       = Some (model_init_preparse entry)).
Proof.
  apply (known_name_selects_first_match surf_network_model_description "CM02").
  - vm_compute. discriminate.
  - simpl. tauto.
Defined.

(** Selection by name on the catalogs of the program. *)
Example select_CM02 :
  find_model_description surf_network_model_description "CM02" = Ret 4.
Proof. reflexivity. Qed.

Example select_ptask :
  find_model_description surf_host_model_description "ptask_L07" = Ret 2.
Proof. reflexivity. Qed.

(** The match is case-sensitive. *)
Example select_is_case_sensitive :
  returns (find_model_description surf_network_model_description "lv08") = false /\
  find_model_description surf_network_model_description "LV08" = Ret 0.
Proof. split; reflexivity. Qed.

(** C9. When the lookup returns, the index it returns is within the
    bounds of the table and the entry there has the requested name; when the
    name is not in the table, and so whenever the table is empty, the lookup
    does not return: it dies. The table is one whose positions fit the
    [int] the lookup returns. *)
Theorem lookup_returns_valid_index_or_dies (table : table_t) (nm : string) :
  Z.of_nat (length table) <= INT_MAX ->
  (forall i, find_model_description table nm = Ret i ->
     0 <= i < Z.of_nat (length table) /\
     exists entry, nth_error table (Z.to_nat i) = Some entry /\ name entry = nm) /\
  (~ In nm (names table) ->
     exists msg, find_model_description table nm = Die msg) /\
  (table = [] -> exists msg, find_model_description table nm = Die msg).
Proof.
  intros Hfit.
  assert (Hdie : ~ In nm (names table) ->
                 exists msg, find_model_description table nm = Die msg).
  { intros Hnot. rewrite <- find_model_description_returns in Hnot.
    destruct (find_model_description table nm) as [i | msg]; simpl in Hnot.
    - congruence.
    - now exists msg. }
  split; [|split].
  - intros i Hret.
    assert (Hin : In nm (names table)).
    { apply find_model_description_returns. now rewrite Hret. }
    apply in_names_iff, find_if_found in Hin.
    destruct (find_if_first _ _ Hin) as (entry & Hnth & Hname & _).
    unfold find_model_description in Hret.
    set (pos := find_if (fun item => String.eqb (name item) nm) table) in *.
    destruct (Nat.eqb_spec pos (length table)) as [Heq | _]; [lia|].
    simpl in Hret. rewrite to_int_small in Hret by lia.
    injection Hret as <-. split; [lia|].
    exists entry. rewrite Nat2Z.id. split; [assumption | now apply String.eqb_eq].
  - exact Hdie.
  - intros ->. apply Hdie. simpl. tauto.
Qed.

Lemma lookup_returns_valid_index_or_dies_witness :
  (forall i, find_model_description surf_host_model_description "compound" = Ret i ->
     0 <= i < Z.of_nat (length surf_host_model_description) /\
     exists entry, nth_error surf_host_model_description (Z.to_nat i) = Some entry /\
                   name entry = "compound") /\
  (~ In "compound" (names surf_host_model_description) ->
     exists msg, find_model_description surf_host_model_description "compound" = Die msg) /\
  (surf_host_model_description = [] ->
     exists msg, find_model_description surf_host_model_description "compound" = Die msg).
Proof.
  apply (lookup_returns_valid_index_or_dies surf_host_model_description "compound").
  vm_compute. discriminate.
Defined.

(** On the empty table the lookup dies whatever the name. *)
Example lookup_in_empty_table (nm : string) :
  find_model_description [] nm = Die "No model is valid! This is a bug.".
Proof. reflexivity. Qed.

End ModelSelection.

(** ** The version contract *)

Section VersionContract.

Import Version.

(** The library is version [M.m.p]; the caller was compiled with [a.b.c]. *)
Variables M m p a b c : Z.

(** C2. The check is fatal whenever the major or the minor numbers differ.
    With equal major and minor and different patch numbers it is fatal when
    either patch number exceeds 89, and otherwise it prints a warning and
    returns. With the three numbers equal it prints nothing and returns. *)
Theorem version_check_contract :
  (a <> M \/ b <> m ->
   verdict_of (sg_version_check M m p a b c) = Fatal) /\
  (a = M -> b = m -> c <> p -> 89 < p \/ 89 < c ->
   verdict_of (sg_version_check M m p a b c) = Fatal) /\
  (a = M -> b = m -> c <> p -> p <= 89 -> c <= 89 ->
   verdict_of (sg_version_check M m p a b c) = Warning /\
   snd (sg_version_check M m p a b c) = Returns) /\
  (a = M -> b = m -> c = p ->
   sg_version_check M m p a b c = ([], Returns)).
Proof.
  unfold sg_version_check.
  destruct (Z.eqb_spec a M) as [Ha | Ha], (Z.eqb_spec b m) as [Hb | Hb],
    (Z.eqb_spec c p) as [Hc | Hc], (Z.ltb_spec 89 p) as [Hp | Hp],
    (Z.ltb_spec 89 c) as [Hc' | Hc'];
    cbn [negb orb verdict_of snd];
    repeat split; intros; try reflexivity; try lia; try tauto.
Qed.

End VersionContract.

Lemma version_check_contract_witness :
  Version.verdict_of (Version.sg_version_check 3 23 0 3 22 0) = Version.Fatal /\
  Version.verdict_of (Version.sg_version_check 3 23 0 3 23 90) = Version.Fatal /\
  Version.verdict_of (Version.sg_version_check 3 23 0 3 23 2) = Version.Warning /\
  Version.sg_version_check 3 23 0 3 23 0 = ([], Version.Returns).
Proof.
  split; [|split; [|split]].
  - apply (proj1 (version_check_contract 3 23 0 3 22 0)). right. discriminate.
  - apply (proj1 (proj2 (version_check_contract 3 23 0 3 23 90)));
      [reflexivity | reflexivity | discriminate | right; reflexivity].
  - refine (proj1 (proj1 (proj2 (proj2 (version_check_contract 3 23 0 3 23 2))) _ _ _ _ _));
      [reflexivity | reflexivity | discriminate | discriminate | discriminate].
  - apply (proj2 (proj2 (proj2 (version_check_contract 3 23 0 3 23 0)))); reflexivity.
Defined.

(** What a caller compiled with 3.23.2 reads when linked against 3.23.0. *)
Example version_warning_text :
  fst (Version.sg_version_check 3 23 0 3 23 2)
  = ["Warning: Your program was compiled with SimGrid version 3.23.2, and then linked against SimGrid 3.23.0. Proceeding anyway."
       +:+ Version.nl].
Proof. reflexivity. Qed.

(** ** Opening a data file *)

Section SurfFopen.

Import Files.

Context {FILE : Type} (fopen : string -> string -> option FILE).

Lemma is_absolute_file_path_spec (name : string) :
  is_absolute_file_path name = true <-> exists rest, name = String "/" rest.
Proof.
  destruct name as [|ch rest]; simpl.
  - split; [discriminate | intros (r & Hr); discriminate].
  - destruct (Ascii.eqb_spec ch "/") as [-> | Hne].
    + split; [intros _; now exists rest | reflexivity].
    + split; [discriminate | intros (r & Hr); congruence].
Qed.

(** The search fails exactly when no element of the path leads to a file
    that opens. *)
Lemma search_path_none (path : list string) (name mode : string) :
  search_path fopen path name mode = None <->
  forall elm, In elm path -> fopen (elm +:+ "/" +:+ name) mode = None.
Proof.
  induction path as [|e path IH]; simpl.
  - split; [intros _ elm [] | reflexivity].
  - destruct (fopen (e +:+ "/" +:+ name) mode) eqn:He.
    + split; [discriminate|]. intros H. rewrite <- He. apply H. now left.
    + rewrite IH. split.
      * intros H elm [<- | Hin]; [assumption | now apply H].
      * intros H elm Hin. apply H. now right.
Qed.

(** A successful search returns the stream of the first element of the
    path that leads to a file that opens. *)
Lemma search_path_some (path : list string) (name mode : string) (file : FILE) :
  search_path fopen path name mode = Some file <->
  exists before elm after,
    path = before ++ elm :: after /\
    (forall q, In q before -> fopen (q +:+ "/" +:+ name) mode = None) /\
    fopen (elm +:+ "/" +:+ name) mode = Some file.
Proof.
  induction path as [|e path IH]; simpl.
  - split; [discriminate|]. intros (before & elm & after & Heq & _).
    destruct before; discriminate.
  - destruct (fopen (e +:+ "/" +:+ name) mode) eqn:He.
    + split.
      * intros Hf. exists [], e, path. split; [reflexivity|].
        split; [intros q [] | congruence].
      * intros (before & elm & after & Heq & Hbefore & Hopen).
        destruct before as [|q before]; simpl in Heq; injection Heq as <- Hrest.
        -- congruence.
        -- rewrite Hbefore in He by now left. discriminate.
    + rewrite IH. split.
      * intros (before & elm & after & -> & Hbefore & Hopen).
        exists (e :: before), elm, after. split; [reflexivity|].
        split; [|assumption].
        intros q [<- | Hq]; [assumption | now apply Hbefore].
      * intros (before & elm & after & Heq & Hbefore & Hopen).
        destruct before as [|q before]; simpl in Heq; injection Heq as <- Hrest.
        -- congruence.
        -- exists before, elm, after. split; [assumption|].
           split; [|assumption]. intros q' Hq'. apply Hbefore. now right.
Qed.

(** C10. A name that starts with a slash is opened as it is, whatever the
    search path holds. For any other name the result is the stream of the
    first element of the search path, in order, for which the element, a
    slash and the name open; it is null exactly when none of them opens. *)
Theorem surf_fopen_contract (surf_path : list string) (name mode : string) :
  (forall rest, name = String "/" rest ->
     forall any_path, surf_fopen fopen any_path name mode = fopen name mode) /\
  ((forall rest, name <> String "/" rest) ->
     (forall file,
        surf_fopen fopen surf_path name mode = Some file <->
        exists before elm after,
          surf_path = before ++ elm :: after /\
          (forall q, In q before -> fopen (q +:+ "/" +:+ name) mode = None) /\
          fopen (elm +:+ "/" +:+ name) mode = Some file) /\
     (surf_fopen fopen surf_path name mode = None <->
      forall elm, In elm surf_path -> fopen (elm +:+ "/" +:+ name) mode = None)).
Proof.
  split.
  - intros rest Hname any_path. unfold surf_fopen.
    replace (is_absolute_file_path name) with true; [reflexivity|].
    symmetry. apply is_absolute_file_path_spec. now exists rest.
  - intros Hrel. unfold surf_fopen.
    destruct (is_absolute_file_path name) eqn:Habs.
    + apply is_absolute_file_path_spec in Habs as (rest & Hrest).
      now destruct (Hrel rest).
    + split; [intros file; apply search_path_some | apply search_path_none].
Qed.

End SurfFopen.

Lemma surf_fopen_contract_witness :
  (forall any_path,
     Files.surf_fopen Files.example_fopen any_path "/etc/platform.xml" "r" = Some 3%nat) /\
  Files.surf_fopen Files.example_fopen Files.example_surf_path "trace.txt" "r" = Some 4%nat /\
  Files.surf_fopen Files.example_fopen Files.example_surf_path "missing.txt" "r" = None.
Proof.
  split; [|split].
  - intros any_path.
    exact (proj1 (surf_fopen_contract Files.example_fopen [] "/etc/platform.xml" "r")
             "etc/platform.xml" eq_refl any_path).
  - apply (surf_fopen_contract Files.example_fopen Files.example_surf_path "trace.txt" "r").
    + intros rest. discriminate.
    + exists ["."], "share", ["/usr/share"]. split; [reflexivity|].
      split; [|reflexivity]. intros q [<- | []]. reflexivity.
  - apply (surf_fopen_contract Files.example_fopen Files.example_surf_path "missing.txt" "r").
    + intros rest. discriminate.
    + intros elm [<- | [<- | [<- | []]]]; reflexivity.
Defined.

(** ** The filtered walk over the network zones *)

Section FilteredWalk.

Import NetZones.

Context {Impl T : Type} (dynamic_cast : Impl -> option T).

Lemma push_if_cast_app (elem : NetZone Impl) (whereto : list T) :
  push_if_cast dynamic_cast elem whereto
  = whereto ++ option_list (dynamic_cast (get_impl elem)).
Proof.
  unfold push_if_cast. destruct (dynamic_cast (get_impl elem)); simpl.
  - reflexivity.
  - now rewrite app_nil_r.
Qed.

(** The walk leaves what it was given in place and appends [collected]. *)
Lemma walk_appends (z : NetZone Impl) :
  forall whereto,
    get_filtered_netzones_recursive dynamic_cast z whereto
    = whereto ++ collected dynamic_cast z.
Proof.
  induction z as [impl children IH] using NetZone_children_ind.
  cbn [get_filtered_netzones_recursive collected].
  induction IH as [|c cs Hc _ IHcs]; intros whereto; cbn [fold_left flat_map].
  - now rewrite app_nil_r.
  - rewrite IHcs, push_if_cast_app, Hc. now rewrite <- !app_assoc.
Qed.

Lemma matching_nodes (z : NetZone Impl) :
  matching dynamic_cast (nodes z)
  = option_list (dynamic_cast (get_impl z)) ++ matching dynamic_cast (descendants z).
Proof.
  destruct z as [impl children]. unfold matching, descendants.
  cbn [nodes omap list_omap get_impl get_children].
  now destruct (dynamic_cast impl).
Qed.

(** What the walk appends below a zone is, up to the order, the zones
    strictly below it that cast. *)
Lemma collected_descendants (z : NetZone Impl) :
  collected dynamic_cast z ≡ₚ matching dynamic_cast (descendants z).
Proof.
  induction z as [impl children IH] using NetZone_children_ind.
  unfold descendants. cbn [collected get_children].
  induction IH as [|c cs Hc _ IHcs]; cbn [flat_map].
  - reflexivity.
  - unfold matching at 1. rewrite omap_app. fold (matching dynamic_cast (nodes c)).
    fold (matching dynamic_cast (flat_map nodes cs)).
    rewrite matching_nodes, IHcs, Hc.
    apply Permutation_app_tail, Permutation_app_comm.
Qed.

(** The walk from the root returns the zones strictly below the root that
    are of the requested category, each once, and never the root. *)
Lemma filtered_walk_descendants (root : NetZone Impl) :
  get_filtered_netzones dynamic_cast root
  ≡ₚ matching dynamic_cast (descendants root).
Proof.
  unfold get_filtered_netzones. rewrite walk_appends. simpl.
  apply collected_descendants.
Qed.

(** Against the zones of the whole tree that are of the requested
    category, the walk lacks the root whenever the root is of it. *)
Lemma filtered_walk_lacks_root (root : NetZone Impl) :
  matching dynamic_cast (nodes root)
  ≡ₚ option_list (dynamic_cast (get_impl root))
      ++ get_filtered_netzones dynamic_cast root.
Proof.
  now rewrite matching_nodes, filtered_walk_descendants.
Qed.

End FilteredWalk.

(** The walk on the platform of three levels: the zones of the requested
    class below the root, children before their parent. *)
Example walk_three_levels :
  NetZones.get_filtered_netzones NetZones.example_cast NetZones.three_levels
  = ["rack2"; "site1"; "rack3"].
Proof. reflexivity. Qed.

(** C5. The walk does not return every zone of the requested category of
    the tree under the root zone: a root zone of that category is left out.
    On a platform made of one zone of the requested class, the walk returns
    nothing, while that zone is in the tree and of that class; on the
    platform of three levels it returns the three zones below the root and
    not the root. *)
Theorem filtered_walk_misses_the_root :
  NetZones.get_filtered_netzones NetZones.example_cast NetZones.lone_root = [] /\
  NetZones.matching NetZones.example_cast (NetZones.nodes NetZones.lone_root)
  = ["world"] /\
  ~ In "world"
      (NetZones.get_filtered_netzones NetZones.example_cast NetZones.three_levels) /\
  In "world"
      (NetZones.matching NetZones.example_cast (NetZones.nodes NetZones.three_levels)).
Proof.
  split; [reflexivity|]. split; [reflexivity|]. split.
  - simpl. intros [H | [H | [H | []]]]; discriminate.
  - simpl. now left.
Qed.

(** ** The registries *)

Section RegistryContract.

Import Registry.

Context {V : Type}.

Implicit Types (reg : registry V) (calls : list (call V)) (name : string).

Lemma by_name_or_null_some name reg :
  by_name_or_null name reg <> None <-> In name (keys reg).
Proof.
  unfold by_name_or_null, keys. induction reg as [|[n r] reg IH]; simpl.
  - tauto.
  - unfold has_name at 1. simpl. destruct (String.eqb_spec n name) as [-> | Hne]; simpl.
    + split; [now left | discriminate].
    + rewrite IH. split; [now right | intros [H | H]; [congruence | assumption]].
Qed.

Lemma by_name_or_null_none name reg :
  by_name_or_null name reg = None <-> ~ In name (keys reg).
Proof.
  rewrite <- by_name_or_null_some.
  destruct (by_name_or_null name reg); split; try congruence; try tauto.
  intros H. exfalso. apply H. discriminate.
Qed.

Lemma by_name_returns name reg :
  returns (by_name name reg) = true <-> In name (keys reg).
Proof.
  rewrite <- by_name_or_null_some. unfold by_name.
  destruct (by_name_or_null name reg); simpl; split; congruence.
Qed.

Lemma keys_filter_out n reg name :
  In name (keys (List.filter (fun entry => negb (has_name n entry)) reg)) <->
  In name (keys reg) /\ name <> n.
Proof.
  unfold keys. rewrite !in_map_iff. split.
  - intros ([k r] & <- & Hin). apply filter_In in Hin as [Hin Hk].
    unfold has_name in Hk. simpl in *.
    split; [now exists (k, r)|].
    intros ->. now rewrite String.eqb_refl in Hk.
  - intros (([k r] & <- & Hin) & Hne). exists (k, r). split; [reflexivity|].
    apply filter_In. split; [assumption|].
    unfold has_name. simpl in *.
    destruct (String.eqb_spec k n); [contradiction | reflexivity].
Qed.

(** The names after a registration, successful or not. *)
Lemma keys_after_register n r reg name :
  In name (keys (step reg (CallRegister n r))) <-> In name (keys reg) \/ name = n.
Proof.
  unfold step, apply_call, register.
  destruct (by_name_or_null n reg) eqn:Hn.
  - assert (In n (keys reg)) by (apply by_name_or_null_some; congruence).
    split; [now left | intros [H' | ->]; assumption].
  - unfold keys. rewrite map_app, in_app_iff. simpl. intuition.
Qed.

(** The names after an unregistration, successful or not. *)
Lemma keys_after_unregister n reg name :
  In name (keys (step reg (CallUnregister n))) <-> In name (keys reg) /\ name <> n.
Proof.
  unfold step, apply_call, unregister.
  destruct (by_name_or_null n reg) eqn:Hn.
  - apply keys_filter_out.
  - apply by_name_or_null_none in Hn.
    split; [|tauto]. intros Hin. split; [assumption | congruence].
Qed.

Lemma currently_registered_nil name : ~ currently_registered name ([] : list (call V)).
Proof.
  intros (before & r & after & Heq & _). destruct before; discriminate.
Qed.

(** How the last call of a sequence decides whether a name is registered. *)
Lemma currently_registered_snoc name calls (c : call V) :
  currently_registered name (calls ++ [c]) <->
  (exists r, c = CallRegister name r) \/
  (currently_registered name calls /\ is_unregister_of name c = false).
Proof.
  split.
  - intros (before & r & after & Heq & Hafter).
    destruct after as [|a after _] using rev_ind.
    + apply app_inj_tail in Heq as [_ ->]. left. now exists r.
    + rewrite app_comm_cons, app_assoc in Heq.
      apply app_inj_tail in Heq as [-> ->]. right. split.
      * exists before, r, after. split; [reflexivity|].
        intros c Hc. apply Hafter, in_app_iff. now left.
      * apply Hafter, in_app_iff. right. now left.
  - intros [(r & ->) | ((before & r & after & -> & Hafter) & Hc)].
    + exists calls, r, []. split; [reflexivity | intros c []].
    + exists before, r, (after ++ [c]). split.
      * now rewrite <- app_assoc.
      * intros c' [Hc' | [<- | []]]%in_app_iff; [now apply Hafter | assumption].
Qed.

(** After any sequence of calls, the names of the registry are the names
    that are currently registered. *)
Lemma keys_after_calls name calls :
  In name (keys (run calls [])) <-> currently_registered name calls.
Proof.
  induction calls as [|c calls IH] using rev_ind.
  - simpl. split; [intros [] | apply currently_registered_nil].
  - unfold run in *. rewrite fold_left_app. cbn [fold_left].
    rewrite currently_registered_snoc. destruct c as [n r | n].
    + rewrite keys_after_register, IH. simpl. split.
      * intros [H | ->]; [right; now split | left; now exists r].
      * intros [(r' & Heq) | [H _]]; [right; congruence | now left].
    + rewrite keys_after_unregister, IH. simpl. split.
      * intros [H Hne]. right. split; [assumption|].
        destruct (String.eqb_spec n name); congruence.
      * intros [(r' & Heq) | [H Hne]]; [discriminate|].
        split; [assumption|]. intros ->. now rewrite String.eqb_refl in Hne.
Qed.

(** Names stay unique. *)
Lemma step_keeps_names_unique reg (c : call V) :
  NoDup (keys reg) -> NoDup (keys (step reg c)).
Proof.
  intros Hnd. destruct c as [n r | n]; unfold step, apply_call.
  - unfold register. destruct (by_name_or_null n reg) eqn:Hn; [assumption|].
    apply by_name_or_null_none in Hn.
    unfold keys in *. rewrite map_app. simpl.
    apply NoDup_app. split; [assumption|]. split.
    + intros x Hx [-> | []]%list_elem_of_In. apply Hn. now apply list_elem_of_In.
    + apply NoDup_singleton.
  - unfold unregister. destruct (by_name_or_null n reg) eqn:Hn; [|assumption].
    clear Hn. unfold keys in *.
    induction reg as [|[k w] reg IH]; simpl in *; [assumption|].
    apply NoDup_cons in Hnd as [Hk Hnd].
    destruct (negb (has_name n (k, w))); simpl; [|now apply IH].
    apply NoDup_cons. split; [|now apply IH].
    intros Hin%list_elem_of_In. apply Hk, list_elem_of_In.
    now apply keys_filter_out in Hin as [Hin _].
Qed.

Lemma run_keeps_names_unique calls :
  NoDup (keys (run calls ([] : registry V))).
Proof.
  induction calls as [|c calls IH] using rev_ind.
  - apply NoDup_nil_2.
  - unfold run in *. rewrite fold_left_app. now apply step_keeps_names_unique.
Qed.

Lemma is_registered_spec name reg :
  is_registered name reg = true <-> In name (keys reg).
Proof.
  rewrite <- by_name_or_null_some. unfold is_registered.
  destruct (by_name_or_null name reg); split; congruence.
Qed.

Lemma by_name_is_registered name reg :
  returns (by_name name reg) = is_registered name reg.
Proof.
  unfold by_name, is_registered. now destruct (by_name_or_null name reg).
Qed.

(** A registration that succeeds: the name was free, and is the one name
    that is added. *)
Lemma register_succeeds n r reg reg' :
  register n r reg = Ret reg' ->
  is_registered n reg = false /\
  forall name, is_registered name reg' = is_registered name reg || String.eqb n name.
Proof.
  intros Hreg.
  assert (Hstep : step reg (CallRegister n r) = reg')
    by (unfold step, apply_call; now rewrite Hreg).
  unfold register in Hreg. unfold is_registered at 1.
  destruct (by_name_or_null n reg); [discriminate|]. split; [reflexivity|].
  intros name. apply Bool.eq_iff_eq_true.
  rewrite Bool.orb_true_iff, !is_registered_spec, <- Hstep, keys_after_register.
  rewrite String.eqb_eq. split; intros [H | H]; auto.
Qed.

(** An unregistration that succeeds: the name was there, and is the one
    name that is removed. *)
Lemma unregister_succeeds n reg reg' :
  unregister n reg = Ret reg' ->
  is_registered n reg = true /\
  forall name,
    is_registered name reg' = is_registered name reg && negb (String.eqb n name).
Proof.
  intros Hun.
  assert (Hstep : step reg (CallUnregister n) = reg')
    by (unfold step, apply_call; now rewrite Hun).
  unfold unregister in Hun. unfold is_registered at 1.
  destruct (by_name_or_null n reg); [|discriminate]. split; [reflexivity|].
  intros name. apply Bool.eq_iff_eq_true.
  rewrite Bool.andb_true_iff, Bool.negb_true_iff, !is_registered_spec, <- Hstep,
    keys_after_unregister.
  split; intros [H Hne]; (split; [assumption|]).
  - destruct (String.eqb_spec n name); congruence.
  - intros ->. now rewrite String.eqb_refl in Hne.
Qed.

(** A registered resource is what both queries return for its name. *)
Lemma lookup_after_register n r reg reg' :
  register n r reg = Ret reg' ->
  by_name_or_null n reg' = Some r /\ by_name n reg' = Ret r.
Proof.
  unfold register. destruct (by_name_or_null n reg) eqn:Hfree; [discriminate|].
  intros [= <-].
  assert (Hq : by_name_or_null n (reg ++ [(n, r)]) = Some r).
  { unfold by_name_or_null in *. induction reg as [|[k w] reg IH]; simpl in *.
    - unfold has_name. simpl. now rewrite String.eqb_refl.
    - unfold has_name at 1 in Hfree. unfold has_name at 1. simpl in *.
      destruct (String.eqb k n); [discriminate | now apply IH]. }
  split; [exact Hq|]. unfold by_name. now rewrite Hq.
Qed.

(** When no call fails the two ways of running a sequence agree. *)
Lemma run_strict_run calls reg reg' :
  run_strict calls reg = Ret reg' -> run calls reg = reg'.
Proof.
  revert reg. induction calls as [|c calls IH]; intros reg; simpl.
  - congruence.
  - unfold step. destruct (apply_call c reg) as [reg1 | msg]; [apply IH | discriminate].
Qed.

(** In a sequence of calls that all succeed, registrations and
    unregistrations of a name balance with its presence before and after. *)
Lemma registration_balance name calls :
  forall reg reg',
    run_strict calls reg = Ret reg' ->
    (registrations name calls + Nat.b2n (is_registered name reg)
     = unregistrations name calls + Nat.b2n (is_registered name reg'))%nat.
Proof.
  unfold registrations, unregistrations.
  induction calls as [|c calls IH]; intros reg reg'; simpl.
  - intros [= ->]. reflexivity.
  - destruct (apply_call c reg) as [reg1 | msg] eqn:Hc; [|discriminate].
    intros Hrest. specialize (IH _ _ Hrest).
    destruct c as [n r | n]; simpl in Hc |- *.
    + apply register_succeeds in Hc as [Hfree Hadd]. rewrite Hadd in IH.
      destruct (String.eqb_spec n name) as [-> | Hne]; simpl in *.
      * rewrite Hfree. change (Nat.b2n false) with 0%nat.
        rewrite Bool.orb_true_r in IH. change (Nat.b2n true) with 1%nat in IH. lia.
      * rewrite Bool.orb_false_r in IH. exact IH.
    + apply unregister_succeeds in Hc as [Hthere Hdel]. rewrite Hdel in IH.
      destruct (String.eqb_spec n name) as [-> | Hne]; simpl in *.
      * rewrite Hthere. change (Nat.b2n true) with 1%nat.
        rewrite Bool.andb_false_r in IH. change (Nat.b2n false) with 0%nat in IH. lia.
      * rewrite Bool.andb_true_r in IH. exact IH.
Qed.

(** C7. After any sequence of register and unregister calls on a fresh
    registry, the throwing lookup of a name succeeds exactly when the name is
    currently registered: some call registered it and no later call
    unregistered it. Registering a name that is registered fails;
    unregistering a name that is not fails, and for such a name the
    non-throwing lookup returns the empty result where the throwing one
    fails. When every call of the sequence succeeded, the name is registered
    exactly when it was registered once more than it was unregistered, and
    otherwise it was registered as often as unregistered. *)
Theorem registry_contract calls name :
  (returns (by_name name (run calls [])) = true <-> currently_registered name calls) /\
  (currently_registered name calls ->
     forall r, returns (register name r (run calls [])) = false) /\
  (~ currently_registered name calls ->
     returns (unregister name (run calls [])) = false /\
     by_name_or_null name (run calls []) = None /\
     returns (by_name name (run calls [])) = false) /\
  (forall reg, run_strict calls [] = Ret reg ->
     reg = run calls [] /\
     (returns (by_name name reg) = true ->
        registrations name calls = S (unregistrations name calls)) /\
     (returns (by_name name reg) = false ->
        registrations name calls = unregistrations name calls)).
Proof.
  split; [|split; [|split]].
  - now rewrite by_name_returns, keys_after_calls.
  - intros Hreg r. apply keys_after_calls, by_name_or_null_some in Hreg.
    unfold register. now destruct (by_name_or_null name (run calls [])).
  - intros Hnot. rewrite <- keys_after_calls, <- by_name_or_null_none in Hnot.
    unfold unregister, by_name. now rewrite Hnot.
  - intros reg Hstrict. split; [symmetry; now apply run_strict_run|].
    pose proof (registration_balance name calls _ _ Hstrict) as Hbal.
    rewrite by_name_is_registered. change (is_registered name []) with false in Hbal.
    simpl in Hbal. split; intros Hq; rewrite Hq in Hbal; simpl in Hbal; lia.
Qed.

End RegistryContract.

(** The engine's accessors for hosts: a host that was registered is found
    under its name by both queries. *)
Lemma host_lookup_after_register (name : string) (host : Kernel.Host)
    (e e' : Kernel.Engine) :
  Kernel.host_register name host e = Ret e' ->
  Kernel.host_by_name_or_null name e' = Some host /\
  Kernel.host_by_name name e' = Ret host.
Proof.
  unfold Kernel.host_register, Kernel.host_by_name_or_null, Kernel.host_by_name.
  destruct (Registry.register name host (Kernel.hosts_ e)) as [reg | msg] eqn:Hreg;
    [|discriminate].
  intros [= <-]. simpl. now apply (lookup_after_register name host (Kernel.hosts_ e)).
Qed.

Lemma registry_contract_witness :
  Registry.currently_registered "bob" Registry.example_calls /\
  ~ Registry.currently_registered "alice" Registry.example_calls /\
  returns (Registry.by_name "bob" (Registry.run Registry.example_calls [])) = true /\
  returns (Registry.register "bob" 9%positive (Registry.run Registry.example_calls []))
  = false /\
  returns (Registry.unregister "alice" (Registry.run Registry.example_calls [])) = false /\
  Registry.by_name_or_null "alice" (Registry.run Registry.example_calls []) = None /\
  Registry.registrations "bob" Registry.example_calls
  = S (Registry.unregistrations "bob" Registry.example_calls).
Proof.
  assert (Hbob : Registry.currently_registered "bob" Registry.example_calls).
  { exists [Registry.CallRegister "alice" 1%positive], 2%positive,
      [Registry.CallUnregister "alice"].
    split; [reflexivity|]. intros c [<- | []]. reflexivity. }
  assert (Halice : ~ Registry.currently_registered "alice" Registry.example_calls).
  { intros Habs.
    apply (proj1 (registry_contract Registry.example_calls "alice")) in Habs.
    discriminate Habs. }
  pose proof (registry_contract Registry.example_calls "bob") as (Hb1 & Hb2 & _ & Hb4).
  pose proof (registry_contract Registry.example_calls "alice") as (_ & _ & Ha3 & _).
  split; [exact Hbob|]. split; [exact Halice|].
  split; [now apply Hb1|]. split; [now apply Hb2|].
  destruct (Ha3 Halice) as (Hu & Hn & _).
  split; [exact Hu|]. split; [exact Hn|].
  destruct (Hb4 _ eq_refl) as (_ & Hcount & _). apply Hcount. reflexivity.
Defined.

(** ** Shutdown: the order of the destructions *)

Section ShutdownOrder.

Import Kernel.

Context {X : Type} {E : Externals X}.

(** What [Engine::shutdown] releases in a state. *)
Lemma Engine_shutdown_effect (s : state X) :
  destroyed (Engine_shutdown s)
  = destroyed s ++ match instance_ s with Some e => engine_releases e | None => [] end /\
  instance_ (Engine_shutdown s) = None /\
  storage_types (Engine_shutdown s) = storage_types s /\
  all_existing_models (Engine_shutdown s) = all_existing_models s /\
  live_models (Engine_shutdown s) = live_models s.
Proof.
  unfold Engine_shutdown. destruct (instance_ s) as [e|] eqn:He; simpl.
  - repeat split; reflexivity.
  - rewrite app_nil_r. repeat split; (reflexivity || assumption).
Qed.

(** The first loop of [surf_exit]. *)
Lemma delete_storage_types_effect (l : list (string * StorageType)) :
  forall s : state X,
    destroyed (fold_left delete_storage_type l s)
    = destroyed s ++ map (fun e => DeletedStorageType (fst e)) l /\
    all_existing_models (fold_left delete_storage_type l s) = all_existing_models s /\
    live_models (fold_left delete_storage_type l s) = live_models s.
Proof.
  induction l as [|e l IH]; intros s; simpl.
  - now rewrite app_nil_r.
  - destruct (IH (delete_storage_type s e)) as (Hd & Hm & Hl).
    rewrite Hd, Hm, Hl. simpl. now rewrite <- app_assoc.
Qed.

(** The second loop of [surf_exit]. *)
Lemma delete_models_effect (l : list Model) :
  forall s : state X,
    destroyed (fold_left delete_model l s) = destroyed s ++ map DeletedModel l /\
    all_existing_models (fold_left delete_model l s) = all_existing_models s /\
    live_models (fold_left delete_model l s) = live_models s ∖ list_to_set l.
Proof.
  induction l as [|m l IH]; intros s; simpl.
  - rewrite app_nil_r. repeat split. now rewrite difference_empty_L.
  - destruct (IH (delete_model s m)) as (Hd & Hm & Hl).
    rewrite Hd, Hm, Hl. simpl. rewrite <- app_assoc. repeat split.
    now rewrite difference_difference_l_L.
Qed.

(** The record of destructions of [surf_exit], when the collaborators it
    calls last leave the models alone. *)
Lemma surf_exit_effect (s : state X) :
  keeps_models tmgr_finalize -> keeps_models sg_platf_exit ->
  destroyed (surf_exit s)
  = destroyed s
      ++ (match instance_ s with Some e => engine_releases e | None => [] end
          ++ map (fun e => DeletedStorageType (fst e)) (storage_types s))
      ++ map DeletedModel (all_existing_models s) /\
  all_existing_models (surf_exit s) = all_existing_models s /\
  live_models (surf_exit s) = live_models s ∖ list_to_set (all_existing_models s).
Proof.
  intros Ht Hp. unfold surf_exit. cbn [destroyed all_existing_models live_models set_NOW].
  destruct (Hp (tmgr_finalize
                  (fold_left delete_model
                     (all_existing_models
                        (fold_left delete_storage_type
                           (storage_types (Engine_shutdown s)) (Engine_shutdown s)))
                     (fold_left delete_storage_type
                        (storage_types (Engine_shutdown s)) (Engine_shutdown s)))))
    as (Hp1 & Hp2 & Hp3).
  rewrite Hp1, Hp2, Hp3.
  destruct (Ht (fold_left delete_model
                  (all_existing_models
                     (fold_left delete_storage_type
                        (storage_types (Engine_shutdown s)) (Engine_shutdown s)))
                  (fold_left delete_storage_type
                     (storage_types (Engine_shutdown s)) (Engine_shutdown s))))
    as (Ht1 & Ht2 & Ht3).
  rewrite Ht1, Ht2, Ht3.
  destruct (delete_models_effect
              (all_existing_models
                 (fold_left delete_storage_type
                    (storage_types (Engine_shutdown s)) (Engine_shutdown s)))
              (fold_left delete_storage_type
                 (storage_types (Engine_shutdown s)) (Engine_shutdown s)))
    as (Hm1 & Hm2 & Hm3).
  rewrite Hm1, Hm2, Hm3.
  destruct (delete_storage_types_effect (storage_types (Engine_shutdown s))
              (Engine_shutdown s)) as (Hs1 & Hs2 & Hs3).
  rewrite Hs1, Hs2, Hs3.
  destruct (Engine_shutdown_effect s) as (He1 & _ & He3 & He4 & He5).
  rewrite He1, He3, He4, He5.
  now rewrite <- !app_assoc.
Qed.

Lemma deletions_of_app (m : Model) (l1 l2 : list event) :
  deletions_of m (l1 ++ l2) = (deletions_of m l1 + deletions_of m l2)%nat.
Proof.
  unfold deletions_of. now rewrite List.filter_app, length_app.
Qed.

Lemma deletions_of_other (m : Model) (l : list event) :
  (forall ev, In ev l -> is_deletion_of m ev = false) -> deletions_of m l = 0%nat.
Proof.
  unfold deletions_of. induction l as [|ev l IH]; intros H; simpl; [reflexivity|].
  rewrite (H ev) by now left. apply IH. intros ev' Hev'. apply H. now right.
Qed.

(** The deletions of a model in the second loop are its occurrences in
    the list of models. *)
Lemma deletions_of_models (m : Model) (l : list Model) :
  deletions_of m (map DeletedModel l) = length (List.filter (Pos.eqb m) l).
Proof.
  unfold deletions_of. induction l as [|x l IH]; simpl; [reflexivity|].
  rewrite Pos.eqb_sym. destruct (Pos.eqb m x); simpl; now rewrite IH.
Qed.

Lemma occurs_once (m : Model) (l : list Model) :
  NoDup l -> In m l -> length (List.filter (Pos.eqb m) l) = 1%nat.
Proof.
  induction 1 as [|x l Hx Hnd IH]; intros Hin; [destruct Hin|]. simpl.
  destruct (Pos.eqb_spec m x) as [<- | Hne]; simpl.
  - f_equal. apply length_zero_iff_nil.
    destruct (List.filter (Pos.eqb m) l) as [|y l'] eqn:Hf; [reflexivity|].
    assert (Hy : In y (List.filter (Pos.eqb m) l)) by (rewrite Hf; now left).
    apply filter_In in Hy as [Hy Heq]. apply Pos.eqb_eq in Heq as <-.
    exfalso. apply Hx. now apply list_elem_of_In.
  - apply IH. destruct Hin as [-> | Hin]; [congruence | assumption].
Qed.

(** Where an event that is foreign to the head of a record occurs. *)
Lemma split_after_prefix {A : Type} (l1 l2 before after : list A) (x : A) :
  ~ In x l1 -> l1 ++ l2 = before ++ x :: after ->
  exists middle, before = l1 ++ middle /\ l2 = middle ++ x :: after.
Proof.
  revert before. induction l1 as [|y l1 IH]; intros before Hx Heq.
  - exists before. now split.
  - destruct before as [|b before]; simpl in Heq; injection Heq as Hhd Htl.
    + exfalso. apply Hx. left. congruence.
    + destruct (IH before) as (middle & -> & ->); [|assumption|].
      * intros Hin. apply Hx. now right.
      * exists middle. subst. now split.
Qed.

Lemma releases_not_deletion {V : Type} (kind : resource_kind)
    (reg : Registry.registry V) (m : Model) :
  ~ In (DeletedModel m) (releases kind reg).
Proof.
  unfold releases. rewrite in_map_iff. intros (e & He & _). discriminate.
Qed.

Lemma in_releases {V : Type} (kind : resource_kind) (reg : Registry.registry V)
    (name : string) :
  In name (Registry.keys reg) -> In (Released kind name) (releases kind reg).
Proof.
  unfold Registry.keys, releases. rewrite !in_map_iff.
  intros (e & <- & He). now exists e.
Qed.

(** C4. [surf_exit] deletes every model of [all_existing_models] as many
    times as the list holds it, so exactly once when the list holds each
    model once, as it does when every model was added on its creation. When
    a model is deleted, every host, link and storage registered in the
    engine has been released and every storage type deleted, and only
    deletions of models follow. After [surf_exit] no model of the list is
    live. The collaborators called after the loop leave the models alone. *)
Theorem models_destroyed_once_after_resources (s : state X) :
  keeps_models tmgr_finalize ->
  keeps_models sg_platf_exit ->
  exists trace,
    destroyed (surf_exit s) = destroyed s ++ trace /\
    (forall m,
       deletions_of m trace = length (List.filter (Pos.eqb m) (all_existing_models s))) /\
    (NoDup (all_existing_models s) ->
     forall m, In m (all_existing_models s) -> deletions_of m trace = 1%nat) /\
    (forall before m after,
       trace = before ++ DeletedModel m :: after ->
       (forall e name,
          instance_ s = Some e ->
          (In name (Registry.keys (hosts_ e)) -> In (Released AHost name) before) /\
          (In name (Registry.keys (links_ e)) -> In (Released ALink name) before) /\
          (In name (Registry.keys (storages_ e)) ->
             In (Released AStorage name) before)) /\
       (forall id, In id (map fst (storage_types s)) ->
          In (DeletedStorageType id) before) /\
       (forall ev, In ev after -> exists m', ev = DeletedModel m')) /\
    (forall m, In m (all_existing_models (surf_exit s)) ->
       m ∉ live_models (surf_exit s)).
Proof.
  intros Ht Hp.
  destruct (surf_exit_effect s Ht Hp) as (Hd & Hm & Hl).
  set (resources :=
         match instance_ s with Some e => engine_releases e | None => [] end
         ++ map (fun e => DeletedStorageType (fst e)) (storage_types s)) in *.
  assert (Hres : forall m, ~ In (DeletedModel m) resources).
  { intros m. unfold resources. rewrite in_app_iff. intros [Hin | Hin].
    - destruct (instance_ s) as [e|]; [|destruct Hin].
      unfold engine_releases in Hin. rewrite !in_app_iff in Hin.
      destruct Hin as [Hin | [Hin | Hin]]; now apply releases_not_deletion in Hin.
    - apply in_map_iff in Hin as (e & He & _). discriminate. }
  assert (Hcount : forall m,
             deletions_of m (resources ++ map DeletedModel (all_existing_models s))
             = length (List.filter (Pos.eqb m) (all_existing_models s))).
  { intros m. rewrite deletions_of_app, deletions_of_models.
    rewrite deletions_of_other; [reflexivity|].
    intros ev Hev. destruct ev as [k n | id | m']; try reflexivity.
    now apply Hres in Hev. }
  exists (resources ++ map DeletedModel (all_existing_models s)).
  split; [exact Hd|]. split; [exact Hcount|]. split; [|split].
  - intros Hnd m Hin. rewrite Hcount. now apply occurs_once.
  - intros before m after Hsplit.
    destruct (split_after_prefix _ _ _ _ _ (Hres m) Hsplit) as (middle & -> & Hmodels).
    split; [|split].
    + intros e name He. unfold resources. rewrite He. unfold engine_releases.
      repeat split; intros Hin; rewrite !in_app_iff.
      * left. left. left. now apply in_releases.
      * left. left. right. left. now apply in_releases.
      * left. left. right. right. now apply in_releases.
    + intros id Hid. rewrite in_app_iff. left. unfold resources.
      rewrite in_app_iff. right. apply in_map_iff in Hid as (e & <- & He).
      apply in_map_iff. now exists e.
    + intros ev Hev.
      assert (Hin : In ev (map DeletedModel (all_existing_models s))).
      { rewrite Hmodels, in_app_iff. right. now right. }
      apply in_map_iff in Hin as (m' & <- & _). now exists m'.
  - intros m Hin. rewrite Hl. rewrite Hm in Hin.
    apply not_elem_of_difference. right.
    apply elem_of_list_to_set, list_elem_of_In, Hin.
Qed.

(** After [surf_exit] there is no instance, so an engine can be built
    anew, and it starts with the clock at 0. *)
Lemma engine_can_be_rebuilt (s : state X) :
  keeps_instance tmgr_finalize ->
  keeps_instance sg_platf_exit ->
  exists s', Engine_new (surf_exit s) = Ret s' /\ surf_get_clock s' = 0%float.
Proof.
  intros Ht Hp.
  assert (Hfold1 : forall l (t : state X),
             instance_ (fold_left delete_storage_type l t) = instance_ t).
  { induction l as [|e l IH]; intros t; simpl; [reflexivity | now rewrite IH]. }
  assert (Hfold2 : forall l (t : state X),
             instance_ (fold_left delete_model l t) = instance_ t).
  { induction l as [|m l IH]; intros t; simpl; [reflexivity | now rewrite IH]. }
  assert (Hnone : instance_ (surf_exit s) = None).
  { unfold surf_exit. cbn [instance_ set_NOW].
    rewrite Hp, Ht, Hfold2, Hfold1. apply Engine_shutdown_effect. }
  unfold Engine_new. rewrite Hnone. eexists. split; reflexivity.
Qed.

End ShutdownOrder.

Lemma models_destroyed_once_after_resources_witness :
  exists trace,
    Kernel.destroyed (@Kernel.surf_exit nat Kernel.example_externals Kernel.example_state)
    = Kernel.destroyed Kernel.example_state ++ trace /\
    Kernel.deletions_of 2%positive trace = 1%nat /\
    forall m,
      In m (Kernel.all_existing_models
              (@Kernel.surf_exit nat Kernel.example_externals Kernel.example_state)) ->
      m ∉ Kernel.live_models
            (@Kernel.surf_exit nat Kernel.example_externals Kernel.example_state).
Proof.
  destruct (@models_destroyed_once_after_resources nat Kernel.example_externals
              Kernel.example_state) as (trace & Hd & _ & Honce & _ & Hlive).
  - intros s. repeat split.
  - intros s. repeat split.
  - exists trace. split; [exact Hd|]. split; [|exact Hlive].
    apply Honce.
    + simpl. repeat constructor; simpl; intros Hin;
        repeat (apply elem_of_cons in Hin as [Hin | Hin]; [discriminate|]);
        now apply not_elem_of_nil in Hin.
    + simpl. tauto.
Defined.

(** The record of destructions of the example: the engine's hosts and
    link, the storage type, then the three models. *)
Example surf_exit_example_record :
  Kernel.destroyed (@Kernel.surf_exit nat Kernel.example_externals Kernel.example_state)
  = [Kernel.Released Kernel.AHost "alice"; Kernel.Released Kernel.AHost "bob";
     Kernel.Released Kernel.ALink "backbone"; Kernel.DeletedStorageType "single_HDD";
     Kernel.DeletedModel 1%positive; Kernel.DeletedModel 2%positive;
     Kernel.DeletedModel 3%positive].
Proof. reflexivity. Qed.

(** The clock of the example has advanced; after shutdown it reads 0. *)
Example surf_exit_example_clock :
  Kernel.surf_get_clock Kernel.example_state = 42.5%float /\
  Kernel.surf_get_clock
    (@Kernel.surf_exit nat Kernel.example_externals Kernel.example_state) = 0%float.
Proof. split; reflexivity. Qed.

(** ** The engine is a singleton; initializing twice *)

Section Singleton.

Import Kernel.

Context {X : Type} {E : Externals X}.

Lemma lifecycle_step_counts (c : lifecycle_call) (sn sn' : state X * nat) :
  counts_instance sn -> lifecycle_step c sn = Ret sn' -> counts_instance sn'.
Proof.
  destruct sn as [s n]. unfold counts_instance, lifecycle_step. simpl.
  intros Hn. destruct c.
  - unfold Engine_new. destruct (instance_ s); [discriminate|].
    intros [= <-]. simpl. now rewrite Hn.
  - unfold Engine_shutdown. destruct (instance_ s) eqn:Hi; intros [= <-]; simpl.
    + now rewrite Hn.
    + now rewrite Hi.
Qed.

Lemma lifecycle_counts (calls : list lifecycle_call) :
  forall sn sn' : state X * nat,
    counts_instance sn -> lifecycle calls sn = Ret sn' -> counts_instance sn'.
Proof.
  induction calls as [|c calls IH]; intros sn sn' Hsn; simpl.
  - now intros [= <-].
  - destruct (lifecycle_step c sn) as [sn1 | msg] eqn:Hstep; [|discriminate].
    apply IH. now apply (lifecycle_step_counts c sn).
Qed.

(** [surf_init] on an initialized kernel returns at once. *)
Lemma surf_init_when_initialized (args : list string) (s : state X) :
  0 < xbt_initialized s -> surf_init args s = (args, s).
Proof.
  intros Hinit. unfold surf_init.
  destruct (Z.ltb_spec 0 (xbt_initialized s)); [reflexivity | lia].
Qed.

(** C8. Through any sequence of constructions and shutdowns that starts
    in a fresh process, at most one engine object exists, and one exists
    exactly when there is an instance. Constructing an engine while there is
    an instance fails. Calling [surf_init] while the kernel is initialized
    returns at once: the arguments and every global are as they were. *)
Theorem engine_is_a_singleton :
  (forall (calls : list lifecycle_call) (x : X) (s : state X) (n : nat),
     lifecycle calls (initial_state x, 0%nat) = Ret (s, n) ->
     (n <= 1)%nat /\ (n = 1%nat <-> get_instance s <> None)) /\
  (forall s : state X,
     get_instance s <> None -> exists msg, Engine_new s = Die msg) /\
  (forall (args : list string) (s : state X),
     0 < xbt_initialized s -> surf_init args s = (args, s)).
Proof.
  split; [|split].
  - intros calls x s n Hrun.
    assert (Hc : counts_instance (s, n)).
    { apply (lifecycle_counts calls (initial_state x, 0%nat)); [reflexivity | assumption]. }
    unfold counts_instance in Hc. simpl in Hc. unfold get_instance.
    destruct (instance_ s); subst n; split; try lia; split; congruence.
  - intros s Hlive. unfold get_instance in Hlive. unfold Engine_new.
    destruct (instance_ s); [eexists; reflexivity | congruence].
  - exact surf_init_when_initialized.
Qed.

(** When [xbt_init] marks the kernel as initialized and the collaborators
    called after it keep that mark, a second [surf_init] changes nothing. *)
Lemma surf_init_twice (args args' : list string) (s : state X) :
  (forall a t, 0 < xbt_initialized (snd (xbt_init a t))) ->
  (forall a t, xbt_initialized (snd (sg_config_init a t)) = xbt_initialized t) ->
  (forall t, xbt_initialized (MC_memory_init t) = xbt_initialized t) ->
  surf_init args' (snd (surf_init args s)) = (args', snd (surf_init args s)).
Proof.
  intros Hxbt Hcfg Hmc.
  apply surf_init_when_initialized. unfold surf_init.
  destruct (Z.ltb_spec 0 (xbt_initialized s)) as [Hpos | Hneg]; [exact Hpos|].
  specialize (Hxbt args s). destruct (xbt_init args s) as [args1 s1].
  specialize (Hcfg args1 s1). destruct (sg_config_init args1 s1) as [args2 s2].
  simpl in *. destruct (MC_is_active s2); simpl; [rewrite Hmc|]; lia.
Qed.

End Singleton.

Lemma engine_is_a_singleton_witness :
  (exists s,
     @Kernel.lifecycle nat [Kernel.Construct; Kernel.Shutdown; Kernel.Construct]
       (Kernel.initial_state O, 0%nat) = Ret (s, 1%nat) /\
     Kernel.get_instance s <> None /\
     exists msg, Kernel.Engine_new s = Die msg) /\
  @Kernel.surf_init nat Kernel.example_externals ["--cfg=network/model:CM02"]
    Kernel.example_state
  = (["--cfg=network/model:CM02"], Kernel.example_state).
Proof.
  pose proof (@engine_is_a_singleton nat Kernel.example_externals) as (Hone & Hnew & Hinit).
  split.
  - eexists. split; [reflexivity|].
    assert (Hlive : Kernel.get_instance
                      (Kernel.set_instance_ (Some Kernel.empty_engine)
                         (Kernel.Engine_shutdown
                            (Kernel.set_instance_ (Some Kernel.empty_engine)
                               (Kernel.initial_state O)))) <> None).
    { apply (Hone [Kernel.Construct; Kernel.Shutdown; Kernel.Construct] O _ 1%nat);
        reflexivity. }
    split; [exact Hlive | exact (Hnew _ Hlive)].
  - apply Hinit. reflexivity.
Defined.

(** A second construction while the first engine lives ends the process. *)
Example second_engine_is_refused :
  @Kernel.lifecycle nat [Kernel.Construct; Kernel.Construct]
    (Kernel.initial_state O, 0%nat)
  = Die "It is currently forbidden to create more than one instance of s4u::Engine".
Proof. reflexivity. Qed.

(** * Further properties of the code *)

(** ** Lookups in catalogs that grow, and in catalogs without repetition *)

Section CatalogLookups.

Import ModelTable.

Implicit Types (table more : table_t) (nm : string).

(** The lookup in terms of the position [find_if] stops at. *)
Lemma find_model_description_at table nm :
  Z.of_nat (length table) <= INT_MAX ->
  (find_if (fun item => String.eqb (name item) nm) table < length table)%nat ->
  find_model_description table nm
  = Ret (Z.of_nat (find_if (fun item => String.eqb (name item) nm) table)).
Proof.
  intros Hfit Hlt. unfold find_model_description.
  destruct (Nat.eqb_spec (find_if (fun item => String.eqb (name item) nm) table)
              (length table)) as [Heq | _]; [lia|].
  simpl. now rewrite to_int_small by lia.
Qed.

Lemma find_model_description_ret table nm i :
  Z.of_nat (length table) <= INT_MAX ->
  find_model_description table nm = Ret i ->
  (find_if (fun item => String.eqb (name item) nm) table < length table)%nat /\
  i = Z.of_nat (find_if (fun item => String.eqb (name item) nm) table).
Proof.
  intros Hfit Hret.
  assert (Hlt : (find_if (fun item => String.eqb (name item) nm) table
                 < length table)%nat).
  { apply find_if_found, in_names_iff, find_model_description_returns.
    now rewrite Hret. }
  split; [exact Hlt|].
  rewrite find_model_description_at in Hret by assumption. congruence.
Qed.

Lemma find_if_app {A : Type} (p : A -> bool) (l l' : list A) :
  find_if p (l ++ l')
  = if (find_if p l <? length l)%nat then find_if p l
    else (length l + find_if p l')%nat.
Proof.
  induction l as [|x l IH]; simpl; [reflexivity|].
  destruct (p x); [reflexivity|]. rewrite IH.
  change (S (find_if p l) <? S (length l))%nat with (find_if p l <? length l)%nat.
  now destruct (find_if p l <? length l)%nat.
Qed.

(** In a catalog without repeated names, [find_if] on the name of an entry
    stops at that entry. *)
Lemma find_if_own_name table (i : nat) (entry : surf_model_description_t) :
  NoDup (names table) ->
  nth_error table i = Some entry ->
  find_if (fun item => String.eqb (name item) (name entry)) table = i.
Proof.
  revert i. induction table as [|x t IH]; intros i Hnd Hnth.
  - destruct i; discriminate.
  - simpl in Hnd. apply NoDup_cons in Hnd as [Hx Hnd]. destruct i as [|i]; simpl in *.
    + injection Hnth as <-. now rewrite String.eqb_refl.
    + destruct (String.eqb_spec (name x) (name entry)) as [Heq | _].
      * exfalso. apply Hx. rewrite Heq. apply list_elem_of_In, in_map.
        now apply nth_error_In in Hnth.
      * f_equal. now apply IH.
Qed.

(** X1. In a catalog in which no name is repeated, looking up the name of
    the entry at a position returns that position: no entry is shadowed. *)
Theorem lookup_of_own_name table (i : nat) (entry : surf_model_description_t) :
  Z.of_nat (length table) <= INT_MAX ->
  NoDup (names table) ->
  nth_error table i = Some entry ->
  find_model_description table (name entry) = Ret (Z.of_nat i).
Proof.
  intros Hfit Hnd Hnth.
  pose proof (find_if_own_name table i entry Hnd Hnth) as Hpos.
  rewrite find_model_description_at; [now rewrite Hpos | assumption|].
  rewrite Hpos. apply nth_error_Some. congruence.
Qed.

(** X2. A lookup that returns keeps its result when entries are put at
    the end of the catalog, whatever their names. *)
Theorem lookup_stable_under_append table more nm (i : Z) :
  Z.of_nat (length (table ++ more)) <= INT_MAX ->
  find_model_description table nm = Ret i ->
  find_model_description (table ++ more) nm = Ret i.
Proof.
  intros Hfit Hret. rewrite length_app in Hfit.
  apply find_model_description_ret in Hret as [Hlt ->]; [|lia].
  assert (Hpos : find_if (fun item => String.eqb (name item) nm) (table ++ more)
                 = find_if (fun item => String.eqb (name item) nm) table).
  { rewrite find_if_app. now apply Nat.ltb_lt in Hlt as ->. }
  rewrite find_model_description_at; rewrite ?Hpos, ?length_app; [reflexivity | lia | lia].
Qed.

(** X3. A name that the catalog lacks is looked up in what is put at its
    end: the lookup in the whole returns the position in the addition,
    moved by the length of the catalog. *)
Theorem lookup_in_appended table more nm (j : Z) :
  Z.of_nat (length (table ++ more)) <= INT_MAX ->
  ~ In nm (names table) ->
  find_model_description more nm = Ret j ->
  find_model_description (table ++ more) nm = Ret (Z.of_nat (length table) + j).
Proof.
  intros Hfit Hnot Hret. rewrite length_app in Hfit.
  apply find_model_description_ret in Hret as [Hlt ->]; [|lia].
  assert (Hend : find_if (fun item => String.eqb (name item) nm) table = length table).
  { pose proof (find_if_le (fun item => String.eqb (name item) nm) table) as Hle.
    destruct (Nat.eq_dec (find_if (fun item => String.eqb (name item) nm) table)
                (length table)) as [Heq | Hne]; [assumption|].
    exfalso. apply Hnot, in_names_iff, find_if_found. lia. }
  assert (Hpos : find_if (fun item => String.eqb (name item) nm) (table ++ more)
                 = (length table
                    + find_if (fun item => String.eqb (name item) nm) more)%nat).
  { rewrite find_if_app, Hend. now rewrite Nat.ltb_irrefl. }
  rewrite find_model_description_at; rewrite ?Hpos, ?length_app; [f_equal; lia | lia | lia].
Qed.

End CatalogLookups.

(** X4. In each of the six catalogs of the program, the name of every
    entry selects that very entry: no model is hidden behind an earlier
    entry of the same name, and each name leads to its own initializer. *)
Theorem program_catalogs_select_every_entry :
  forall table, In table ModelTable.program_catalogs ->
  forall (i : nat) (entry : ModelTable.surf_model_description_t),
    nth_error table i = Some entry ->
    ModelTable.find_model_description table (ModelTable.name entry) = Ret (Z.of_nat i).
Proof.
  intros table Hin i entry Hnth.
  repeat (destruct Hin as [<- | Hin];
          [ repeat (destruct i as [|i]; [injection Hnth as <-; reflexivity|]);
            destruct i; discriminate | ]).
  destruct Hin.
Qed.

Lemma program_catalogs_select_every_entry_witness :
  ModelTable.find_model_description ModelTable.surf_host_model_description "compound"
  = Ret 1.
Proof.
  apply (program_catalogs_select_every_entry ModelTable.surf_host_model_description
           ltac:(simpl; tauto) 1%nat
           {| ModelTable.name := "compound";
              ModelTable.description :=
                "Host model that is automatically chosen if you change the network and CPU models";
              ModelTable.model_init_preparse :=
                Some ModelTable.surf_host_model_init_compound |}).
  reflexivity.
Defined.

Lemma lookup_of_own_name_witness :
  ModelTable.find_model_description Plugins.example_plugins "link_energy" = Ret 1.
Proof.
  apply (lookup_of_own_name Plugins.example_plugins 1%nat
           {| ModelTable.name := "link_energy";
              ModelTable.description := "Link energy consumption.";
              ModelTable.model_init_preparse := None |}).
  - vm_compute. discriminate.
  - simpl. repeat constructor; simpl; intros Hin;
      repeat (apply elem_of_cons in Hin as [Hin | Hin]; [discriminate|]);
      now apply not_elem_of_nil in Hin.
  - reflexivity.
Defined.

Lemma lookup_stable_under_append_witness :
  ModelTable.find_model_description
    (ModelTable.surf_cpu_model_description ++ Plugins.example_plugins) "Cas01"
  = Ret 0.
Proof.
  apply (lookup_stable_under_append ModelTable.surf_cpu_model_description
           Plugins.example_plugins "Cas01" 0).
  - vm_compute. discriminate.
  - reflexivity.
Defined.

Lemma lookup_in_appended_witness :
  ModelTable.find_model_description
    (ModelTable.surf_cpu_model_description ++ Plugins.example_plugins) "host_load"
  = Ret (Z.of_nat (length ModelTable.surf_cpu_model_description) + 2).
Proof.
  apply (lookup_in_appended ModelTable.surf_cpu_model_description
           Plugins.example_plugins "host_load" 2).
  - vm_compute. discriminate.
  - simpl. intros [H | []]. discriminate.
  - reflexivity.
Defined.

(** ** Plugin descriptions *)

Section PluginTable.

Import ModelTable Plugins.

Implicit Types (p : option table_t) (nm : string).

Lemma entries_after_add nm (d : string) (f : option void_f_void_t) p :
  entries (simgrid_add_plugin_description nm d f p)
  = entries p ++ [{| name := nm; description := d; model_init_preparse := f |}].
Proof. now destruct p. Qed.

(** X5. A plugin added under a name that no plugin has yet is found by
    the lookup at the end of the table, with the description and the
    initializer it was added with, whether the table existed or not. *)
Theorem added_plugin_is_found nm (d : string) (f : option void_f_void_t) p :
  Z.of_nat (length (entries p)) < INT_MAX ->
  ~ In nm (names (entries p)) ->
  find_model_description (entries (simgrid_add_plugin_description nm d f p)) nm
  = Ret (Z.of_nat (length (entries p))) /\
  nth_error (entries (simgrid_add_plugin_description nm d f p)) (length (entries p))
  = Some {| name := nm; description := d; model_init_preparse := f |}.
Proof.
  intros Hfit Hnot. rewrite entries_after_add. split.
  - assert (Hend : find_if (fun item => String.eqb (name item) nm) (entries p)
                   = length (entries p)).
    { pose proof (find_if_le (fun item => String.eqb (name item) nm) (entries p)) as Hle.
      destruct (Nat.eq_dec (find_if (fun item => String.eqb (name item) nm) (entries p))
                  (length (entries p))) as [Heq | Hne]; [assumption|].
      exfalso. apply Hnot, in_names_iff, find_if_found. lia. }
    assert (Hpos : find_if (fun item => String.eqb (name item) nm)
                     (entries p
                      ++ [{| name := nm; description := d; model_init_preparse := f |}])
                   = length (entries p)).
    { rewrite find_if_app, Hend, Nat.ltb_irrefl. simpl.
      rewrite String.eqb_refl. lia. }
    rewrite find_model_description_at; rewrite ?Hpos, ?length_app; simpl;
      [reflexivity | lia | lia].
  - rewrite nth_error_app2 by lia. now rewrite Nat.sub_diag.
Qed.

(** X6. Adding a plugin never changes what a name that was found resolves
    to. In particular a plugin added under a name that is taken is never
    reached by the lookup: the name keeps resolving to the earlier entry. *)
Theorem added_plugin_keeps_lookups nm (d : string) (f : option void_f_void_t) p
    (nm' : string) (i : Z) :
  Z.of_nat (length (entries p)) < INT_MAX ->
  find_model_description (entries p) nm' = Ret i ->
  find_model_description (entries (simgrid_add_plugin_description nm d f p)) nm'
  = Ret i.
Proof.
  intros Hfit Hret. rewrite entries_after_add.
  apply find_model_description_ret in Hret as [Hlt ->]; [|lia].
  assert (Hpos : find_if (fun item => String.eqb (name item) nm')
                   (entries p
                    ++ [{| name := nm; description := d; model_init_preparse := f |}])
                 = find_if (fun item => String.eqb (name item) nm') (entries p)).
  { rewrite find_if_app. now apply Nat.ltb_lt in Hlt as ->. }
  rewrite find_model_description_at; rewrite ?Hpos, ?length_app; simpl;
    [reflexivity | lia | lia].
Qed.

Lemma entries_after_add_all (calls : table_t) p :
  entries (add_all calls p) = entries p ++ calls.
Proof.
  unfold add_all. revert p. induction calls as [|c calls IH]; intros p; simpl.
  - now rewrite app_nil_r.
  - rewrite IH, entries_after_add, <- app_assoc. now destruct c.
Qed.

(** X7. After the table is freed, a sequence of additions under distinct
    names builds a table that holds the additions in the order of the calls,
    and the lookup of the name of the call of rank [i] returns [i], whatever
    the table held before it was freed. *)
Theorem plugins_after_free (calls : table_t) p (i : nat)
    (entry : surf_model_description_t) :
  Z.of_nat (length calls) <= INT_MAX ->
  NoDup (names calls) ->
  nth_error calls i = Some entry ->
  entries (add_all calls (simgrid_free_plugin_description p)) = calls /\
  find_model_description
    (entries (add_all calls (simgrid_free_plugin_description p))) (name entry)
  = Ret (Z.of_nat i).
Proof.
  intros Hfit Hnd Hnth. rewrite entries_after_add_all. simpl. split; [reflexivity|].
  pose proof (find_if_own_name calls i entry Hnd Hnth) as Hpos.
  rewrite find_model_description_at; [now rewrite Hpos | assumption|].
  rewrite Hpos. apply nth_error_Some. congruence.
Qed.

End PluginTable.

Lemma added_plugin_is_found_witness :
  ModelTable.find_model_description
    (Plugins.entries
       (Plugins.simgrid_add_plugin_description "host_dvfs" "Dvfs support" None
          (Some Plugins.example_plugins))) "host_dvfs"
  = Ret 3 /\
  ModelTable.find_model_description
    (Plugins.entries
       (Plugins.simgrid_add_plugin_description "host_dvfs" "Dvfs support" None None))
    "host_dvfs"
  = Ret 0.
Proof.
  split.
  - apply (added_plugin_is_found "host_dvfs" "Dvfs support" None
             (Some Plugins.example_plugins)).
    + vm_compute. reflexivity.
    + simpl. intros [H | [H | [H | []]]]; discriminate.
  - apply (added_plugin_is_found "host_dvfs" "Dvfs support" None None).
    + vm_compute. reflexivity.
    + simpl. tauto.
Defined.

Lemma added_plugin_keeps_lookups_witness :
  ModelTable.find_model_description
    (Plugins.entries
       (Plugins.simgrid_add_plugin_description "host_energy" "Another one" None
          (Some Plugins.example_plugins))) "host_energy"
  = Ret 0.
Proof.
  apply (added_plugin_keeps_lookups "host_energy" "Another one" None
           (Some Plugins.example_plugins) "host_energy" 0).
  - vm_compute. reflexivity.
  - reflexivity.
Defined.

Lemma plugins_after_free_witness :
  Plugins.entries
    (Plugins.add_all Plugins.example_plugins
       (Plugins.simgrid_free_plugin_description (Some ModelTable.catalog_AB)))
  = Plugins.example_plugins /\
  ModelTable.find_model_description
    (Plugins.entries
       (Plugins.add_all Plugins.example_plugins
          (Plugins.simgrid_free_plugin_description (Some ModelTable.catalog_AB))))
    "host_load"
  = Ret 2.
Proof.
  apply (plugins_after_free Plugins.example_plugins (Some ModelTable.catalog_AB) 2%nat
           {| ModelTable.name := "host_load";
              ModelTable.description := "Cpu load.";
              ModelTable.model_init_preparse := None |}).
  - vm_compute. discriminate.
  - simpl. repeat constructor; simpl; intros Hin;
      repeat (apply elem_of_cons in Hin as [Hin | Hin]; [discriminate|]);
      now apply not_elem_of_nil in Hin.
  - reflexivity.
Defined.

(** ** More on the version contract *)

Section VersionFacts.

Import Version.

(** The library is version [M.m.p]; the caller was compiled with [a.b.c]. *)
Variables M m p a b c : Z.

(** X8. The verdict of the check does not depend on which of the two
    versions is the library's and which the caller's. *)
Theorem version_check_symmetric :
  verdict_of (sg_version_check M m p a b c)
  = verdict_of (sg_version_check a b c M m p).
Proof.
  unfold sg_version_check.
  destruct (Z.eqb_spec a M) as [Ha | Ha], (Z.eqb_spec M a) as [Ha' | Ha'];
    try congruence;
    destruct (Z.eqb_spec b m) as [Hb | Hb], (Z.eqb_spec m b) as [Hb' | Hb'];
    try congruence;
    destruct (Z.eqb_spec c p) as [Hc | Hc], (Z.eqb_spec p c) as [Hc' | Hc'];
    try congruence;
    destruct (Z.ltb 89 p), (Z.ltb 89 c); reflexivity.
Qed.

(** X9. The check prints nothing and returns exactly for the caller whose
    version is the one [sg_version_get] reports. *)
Theorem version_check_silent_iff :
  sg_version_check M m p a b c = ([], Returns) <-> (a, b, c) = sg_version_get M m p.
Proof.
  unfold sg_version_check, sg_version_get.
  destruct (Z.eqb_spec a M) as [Ha | Ha], (Z.eqb_spec b m) as [Hb | Hb],
    (Z.eqb_spec c p) as [Hc | Hc]; cbn [negb orb];
    try (split; [discriminate | congruence]).
  - split; [intros _; congruence | reflexivity].
  - destruct (Z.ltb 89 p || Z.ltb 89 c); split; (discriminate || congruence).
Qed.

(** X10. The check never aborts without a diagnostic and never prints
    more than one message; a message that is printed names the version of
    the caller, then the version of the library. *)
Theorem version_check_diagnostic :
  sg_version_check M m p a b c = ([], Returns) \/
  exists msg before between after,
    fst (sg_version_check M m p a b c) = [msg] /\
    msg = before +:+ dotted a b c +:+ between +:+ dotted M m p +:+ after.
Proof.
  unfold sg_version_check.
  destruct (negb (Z.eqb a M) || negb (Z.eqb b m)); [|destruct (negb (Z.eqb c p))];
    [| destruct (Z.ltb 89 p || Z.ltb 89 c) | ]; cbn [fst].
  - right.
    exists ("FATAL ERROR: Your program was compiled with SimGrid version "
            +:+ dotted a b c +:+ ", and then linked against SimGrid "
            +:+ dotted M m p +:+ ". Please fix this." +:+ nl),
      "FATAL ERROR: Your program was compiled with SimGrid version ",
      ", and then linked against SimGrid ", (". Please fix this." +:+ nl).
    split; reflexivity.
  - right.
    exists ("FATAL ERROR: Your program was compiled with SimGrid version "
            +:+ dotted a b c +:+ ", and then linked against SimGrid "
            +:+ dotted M m p +:+ ". " +:+ nl
            +:+ "One of them is a development version, and should not be mixed with the stable release. Please fix this."
            +:+ nl),
      "FATAL ERROR: Your program was compiled with SimGrid version ",
      ", and then linked against SimGrid ",
      (". " +:+ nl
       +:+ "One of them is a development version, and should not be mixed with the stable release. Please fix this."
       +:+ nl).
    split; reflexivity.
  - right.
    exists ("Warning: Your program was compiled with SimGrid version "
            +:+ dotted a b c +:+ ", and then linked against SimGrid "
            +:+ dotted M m p +:+ ". Proceeding anyway." +:+ nl),
      "Warning: Your program was compiled with SimGrid version ",
      ", and then linked against SimGrid ", (". Proceeding anyway." +:+ nl).
    split; reflexivity.
  - left. reflexivity.
Qed.

End VersionFacts.

(** ** The version string of the Python module *)

Section VersionString.

Import Version PythonVersion.

Lemma digits_dot_free (d : Decimal.uint) :
  dot_free (NilEmpty.string_of_uint d) = true.
Proof. induction d; simpl; auto. Qed.

(** What [%d] prints has no dot. *)
Lemma pd_dot_free (z : Z) : dot_free (pd z) = true.
Proof.
  unfold pd, NilZero.string_of_int, NilZero.string_of_uint.
  destruct (Z.to_int z) as [d | d]; destruct d; simpl;
    try reflexivity; apply digits_dot_free.
Qed.

(** [%d] prints different numbers differently. *)
Lemma pd_inj (x y : Z) : pd x = pd y -> x = y.
Proof.
  unfold pd. intros Heq. apply DecimalZ.to_int_inj.
  assert (Hparse : forall z,
             NilZero.int_of_string (NilZero.string_of_int (Z.to_int z))
             = Some (Z.to_int z)).
  { intros z. apply NilZero.isi; destruct z; simpl; try discriminate;
      intros [= H]; now apply DecimalPos.Unsigned.to_uint_nonnil in H. }
  pose proof (Hparse x) as Hx. rewrite Heq, Hparse in Hx. congruence.
Qed.

(** Two strings that agree and start with a dot-free part followed by a
    dot agree on that part and on the rest. *)
Lemma split_at_first_dot (s1 s2 r1 r2 : string) :
  dot_free s1 = true -> dot_free s2 = true ->
  s1 +:+ "." +:+ r1 = s2 +:+ "." +:+ r2 ->
  s1 = s2 /\ r1 = r2.
Proof.
  change ("." +:+ r1) with (String "." r1). change ("." +:+ r2) with (String "." r2).
  revert s2. induction s1 as [|c1 s1 IH]; intros [|c2 s2] H1 H2 Heq.
  - change (String "." r1 = String "." r2) in Heq. injection Heq as ->. now split.
  - change (String "." r1 = String c2 (s2 +:+ String "." r2)) in Heq.
    injection Heq as <- _. simpl in H2. discriminate.
  - change (String c1 (s1 +:+ String "." r1) = String "." r2) in Heq.
    injection Heq as -> _. simpl in H1. discriminate.
  - change (String c1 (s1 +:+ String "." r1) = String c2 (s2 +:+ String "." r2)) in Heq.
    injection Heq as -> Heq.
    simpl in H1, H2. apply andb_prop in H1 as [_ H1]. apply andb_prop in H2 as [_ H2].
    destruct (IH s2 H1 H2 Heq) as [-> ->]. now split.
Qed.

(** X11. The version string that the Python module exposes determines the
    version: two libraries whose strings are equal have the same major,
    minor and patch numbers. *)
Theorem version_string_injective (M m p M' m' p' : Z) :
  get_simgrid_version M m p = get_simgrid_version M' m' p' ->
  M = M' /\ m = m' /\ p = p'.
Proof.
  unfold get_simgrid_version, sg_version_get. intros Heq.
  apply split_at_first_dot in Heq as [HM Heq]; try apply pd_dot_free.
  apply split_at_first_dot in Heq as [Hm Hp]; try apply pd_dot_free.
  repeat split; now apply pd_inj.
Qed.

End VersionString.

Lemma version_string_injective_witness :
  (3 = 3 /\ 23 = 23 /\ 0 = 0) /\ PythonVersion.get_simgrid_version 3 23 0 = "3.23.0".
Proof.
  split; [|reflexivity].
  apply (version_string_injective 3 23 0 3 23 0). reflexivity.
Defined.

(** ** More on opening data files *)

Section SearchPath.

Import Files.

Context {FILE : Type} (fopen : string -> string -> option FILE).

Lemma search_path_app (p q : list string) (name mode : string) :
  search_path fopen (p ++ q) name mode
  = match search_path fopen p name mode with
    | Some file => Some file
    | None => search_path fopen q name mode
    end.
Proof.
  induction p as [|e p IH]; simpl; [reflexivity|].
  now destruct (fopen (e +:+ "/" +:+ name) mode).
Qed.

(** X12. The elements of the search path take precedence in their order:
    on a path made of two parts, [surf_fopen] returns what it returns on the
    first part when that is a stream, and otherwise what it returns on the
    second part. This holds for every name, absolute or not. *)
Theorem surf_fopen_on_joined_paths (p q : list string) (name mode : string) :
  surf_fopen fopen (p ++ q) name mode
  = match surf_fopen fopen p name mode with
    | Some file => Some file
    | None => surf_fopen fopen q name mode
    end.
Proof.
  unfold surf_fopen. destruct (is_absolute_file_path name).
  - now destruct (fopen name mode).
  - apply search_path_app.
Qed.

End SearchPath.

(** ** Opening a data file as an input stream *)

Section InputStreams.

Import Files Streams.

Context {FILE : Type}.

(** The C library and the stream library open the same files for reading. *)
Variable fopen : string -> string -> option FILE.
Variable open_in : string -> option FILE.
Hypothesis same_files : forall name, fopen name "r" = open_in name.

(** The loop, entered with a stream that has no file. *)
Lemma ifs_search_closed (path : list string) (name : string) (fs : ifstream FILE) :
  rdbuf fs = None ->
  rdbuf (ifs_search open_in path name fs) = search_path fopen path name "r" /\
  failbit (ifs_search open_in path name fs)
  = match search_path fopen path name "r" with
    | Some _ => false
    | None => match path with [] => failbit fs | _ :: _ => true end
    end.
Proof.
  revert fs. induction path as [|e path IH]; intros fs Hclosed.
  - now split.
  - cbn [ifs_search search_path]. rewrite same_files.
    unfold ifstream_open. rewrite Hclosed.
    destruct (open_in (e +:+ "/" +:+ name)) as [file|]; cbn [ifstream_fail failbit negb].
    + now split.
    + destruct (IH {| rdbuf := None; failbit := true |} eq_refl) as [Hbuf Hfail].
      rewrite Hbuf, Hfail. split; [reflexivity|].
      destruct (search_path fopen path name "r"); [reflexivity|]. now destruct path.
Qed.

(** The loop, entered with a stream that has a file. *)
Lemma ifs_search_opened (path : list string) (name : string) (fs : ifstream FILE)
    (file : FILE) :
  rdbuf fs = Some file ->
  rdbuf (ifs_search open_in path name fs) = Some file /\
  failbit (ifs_search open_in path name fs)
  = match path with [] => failbit fs | _ :: _ => true end.
Proof.
  revert fs. induction path as [|e path IH]; intros fs Hopen; simpl.
  - now split.
  - unfold ifstream_open. rewrite Hopen. simpl.
    destruct (IH {| rdbuf := Some file; failbit := true |} eq_refl) as [Hbuf Hfail].
    rewrite Hbuf, Hfail. split; [reflexivity | now destruct path].
Qed.

(** X13. For a name that is not empty and does not start with a slash,
    the stream [surf_ifsopen] returns holds the file that [surf_fopen] opens
    for reading: the first along the search path. It reports a failure
    exactly when no file was opened and the search path is not empty; with an
    empty search path it holds no file and reports no failure. *)
Theorem surf_ifsopen_relative (surf_path : list string) (name : string) :
  name <> "" ->
  is_absolute_file_path name = false ->
  exists fs,
    surf_ifsopen open_in surf_path name = Ret fs /\
    rdbuf fs = surf_fopen fopen surf_path name "r" /\
    (ifstream_fail fs = true <-> rdbuf fs = None /\ surf_path <> []).
Proof.
  intros Hne Hrel. unfold surf_ifsopen, surf_fopen. rewrite Hrel.
  destruct name as [|ch name]; [congruence|].
  destruct (ifs_search_closed surf_path (String ch name) ifstream_new eq_refl)
    as [Hbuf Hfail].
  eexists. split; [reflexivity|]. split; [exact Hbuf|].
  unfold ifstream_fail. rewrite Hfail, Hbuf.
  destruct (search_path fopen surf_path (String ch name) "r").
  - split; [discriminate | intros [H _]; discriminate].
  - destruct surf_path; simpl; split; try discriminate; try tauto.
    intros _. split; [reflexivity | discriminate].
Qed.

(** X14. For a name that starts with a slash and opens, the stream
    [surf_ifsopen] returns holds that file, as [surf_fopen] does, but it
    reports a failure as soon as the search path has an element: the loop
    over the search path is run on the open stream. *)
Theorem surf_ifsopen_absolute_found (surf_path : list string) (name : string)
    (file : FILE) :
  is_absolute_file_path name = true ->
  open_in name = Some file ->
  exists fs,
    surf_ifsopen open_in surf_path name = Ret fs /\
    rdbuf fs = Some file /\
    surf_fopen fopen surf_path name "r" = Some file /\
    (ifstream_fail fs = true <-> surf_path <> []).
Proof.
  intros Habs Hopen. unfold surf_ifsopen, surf_fopen. rewrite Habs.
  destruct name as [|ch name]; [discriminate|].
  destruct (ifs_search_opened surf_path (String ch name)
              (ifstream_open open_in (String ch name) ifstream_new) file)
    as [Hbuf Hfail].
  { unfold ifstream_open. simpl. now rewrite Hopen. }
  eexists. split; [reflexivity|]. split; [exact Hbuf|].
  split; [now rewrite same_files|].
  unfold ifstream_fail. rewrite Hfail.
  unfold ifstream_open. simpl. rewrite Hopen. simpl.
  destruct surf_path; split; try discriminate; try tauto; congruence.
Qed.

(** X15. For a name that starts with a slash and does not open,
    [surf_fopen] returns null, but [surf_ifsopen] goes on along the search
    path: its stream holds the first file that opens under an element of the
    path, a slash and the name, and it reports a failure exactly when it
    holds no file. *)
Theorem surf_ifsopen_absolute_missing (surf_path : list string) (name : string) :
  is_absolute_file_path name = true ->
  open_in name = None ->
  surf_fopen fopen surf_path name "r" = None /\
  exists fs,
    surf_ifsopen open_in surf_path name = Ret fs /\
    rdbuf fs = search_path fopen surf_path name "r" /\
    (ifstream_fail fs = true <-> rdbuf fs = None).
Proof.
  intros Habs Hopen. unfold surf_ifsopen, surf_fopen. rewrite Habs.
  split; [now rewrite same_files|].
  destruct name as [|ch name]; [discriminate|].
  destruct (ifs_search_closed surf_path (String ch name)
              (ifstream_open open_in (String ch name) ifstream_new))
    as [Hbuf Hfail].
  { unfold ifstream_open. simpl. now rewrite Hopen. }
  eexists. split; [reflexivity|]. split; [exact Hbuf|].
  unfold ifstream_fail. rewrite Hfail, Hbuf.
  unfold ifstream_open. simpl. rewrite Hopen. simpl.
  destruct (search_path fopen surf_path (String ch name) "r").
  - split; discriminate.
  - destruct surf_path; split; reflexivity.
Qed.

End InputStreams.

Lemma example_files_agree (name : string) :
  Files.example_fopen name "r" = Streams.example_open_in name.
Proof. reflexivity. Qed.

Lemma surf_ifsopen_relative_witness :
  exists fs,
    Streams.surf_ifsopen Streams.example_open_in Files.example_surf_path "trace.txt"
    = Ret fs /\
    Streams.rdbuf fs
    = Files.surf_fopen Files.example_fopen Files.example_surf_path "trace.txt" "r" /\
    (Streams.ifstream_fail fs = true <->
     Streams.rdbuf fs = None /\ Files.example_surf_path <> []).
Proof.
  apply (surf_ifsopen_relative Files.example_fopen Streams.example_open_in
           example_files_agree Files.example_surf_path "trace.txt").
  - discriminate.
  - reflexivity.
Defined.

Lemma surf_ifsopen_absolute_found_witness :
  exists fs,
    Streams.surf_ifsopen Streams.example_open_in Files.example_surf_path
      "/etc/platform.xml" = Ret fs /\
    Streams.rdbuf fs = Some 3%nat /\
    Files.surf_fopen Files.example_fopen Files.example_surf_path "/etc/platform.xml" "r"
    = Some 3%nat /\
    (Streams.ifstream_fail fs = true <-> Files.example_surf_path <> []).
Proof.
  apply (surf_ifsopen_absolute_found Files.example_fopen Streams.example_open_in
           example_files_agree Files.example_surf_path "/etc/platform.xml" 3%nat);
    reflexivity.
Defined.

Lemma surf_ifsopen_absolute_missing_witness :
  Files.surf_fopen Files.example_fopen ["share/trace.txt"; "."] "/" "r" = None /\
  exists fs,
    Streams.surf_ifsopen Streams.example_open_in ["share/trace.txt"; "."] "/" = Ret fs /\
    Streams.rdbuf fs
    = Files.search_path Files.example_fopen ["share/trace.txt"; "."] "/" "r" /\
    (Streams.ifstream_fail fs = true <-> Streams.rdbuf fs = None).
Proof.
  apply (surf_ifsopen_absolute_missing Files.example_fopen Streams.example_open_in
           example_files_agree ["share/trace.txt"; "."] "/"); reflexivity.
Defined.

(** The stream for an absolute name that opens, with the search path of
    the examples: it holds the file and reports a failure. *)
Example surf_ifsopen_absolute_example :
  Streams.surf_ifsopen Streams.example_open_in Files.example_surf_path
    "/etc/platform.xml"
  = Ret {| Streams.rdbuf := Some 3%nat; Streams.failbit := true |}.
Proof. reflexivity. Qed.

(** The empty name is refused. *)
Example surf_ifsopen_empty_name (path : list string) :
  Streams.surf_ifsopen Streams.example_open_in path ""
  = Die "Assertion not name.empty() failed".
Proof. reflexivity. Qed.

(** ** More on the filtered walk *)

Section WalkFacts.

Import NetZones.

Context {Impl T : Type} (dynamic_cast : Impl -> option T).

(** X16. The recursive walk only adds at the end of the vector it is
    given: what the vector held stays in place, followed by what the walk
    returns from an empty vector. *)
Theorem walk_keeps_the_vector (z : NetZone Impl) (whereto : list T) :
  get_filtered_netzones_recursive dynamic_cast z whereto
  = whereto ++ get_filtered_netzones dynamic_cast z.
Proof.
  unfold get_filtered_netzones. now rewrite (walk_appends _ z whereto), (walk_appends _ z []).
Qed.

(** X17. The order of the result: for each child of the root in turn,
    the zones the walk returns for the tree under that child, then the child
    itself when it is of the requested category. A zone comes after all the
    zones below it. *)
Theorem walk_order (impl : Impl) (children : list (NetZone Impl)) :
  get_filtered_netzones dynamic_cast (Zone impl children)
  = flat_map
      (fun c => get_filtered_netzones dynamic_cast c
                ++ option_list (dynamic_cast (get_impl c)))
      children.
Proof.
  unfold get_filtered_netzones. rewrite walk_appends. cbn [app collected].
  induction children as [|c cs IH]; cbn [flat_map]; [reflexivity|].
  now rewrite IH, (walk_appends _ c []).
Qed.

(** X18. The walk returns the zones strictly below the root that are of
    the requested category, each of them once, and nothing else. *)
Theorem walk_returns_matching_descendants (root : NetZone Impl) :
  get_filtered_netzones dynamic_cast root
  ≡ₚ matching dynamic_cast (descendants root).
Proof.
  unfold get_filtered_netzones. rewrite walk_appends. cbn [app].
  apply collected_descendants.
Qed.

Lemma matching_all (l : list (NetZone Impl)) :
  (forall impl, dynamic_cast impl <> None) ->
  length (matching dynamic_cast l) = length l.
Proof.
  intros Hall. induction l as [|z l IH]; [reflexivity|].
  unfold matching in *. cbn [omap list_omap] in *.
  destruct (dynamic_cast (get_impl z)) eqn:Hz.
  - cbn [length]. f_equal. exact IH.
  - now apply Hall in Hz.
Qed.

(** X19. When the cast never fails, as for the class all zones derive
    from, the walk returns one object for every zone of the tree but the
    root. *)
Theorem walk_counts_all_but_root (root : NetZone Impl) :
  (forall impl, dynamic_cast impl <> None) ->
  S (length (get_filtered_netzones dynamic_cast root)) = length (nodes root).
Proof.
  intros Hall.
  assert (Hlen : length (get_filtered_netzones dynamic_cast root)
                 = length (matching dynamic_cast (descendants root))).
  { unfold get_filtered_netzones. rewrite walk_appends. cbn [app].
    apply Permutation_length, collected_descendants. }
  rewrite Hlen, matching_all by assumption.
  destruct root as [impl children]. reflexivity.
Qed.

End WalkFacts.

Lemma walk_counts_all_but_root_witness :
  S (length (NetZones.get_filtered_netzones NetZones.example_base_cast
               NetZones.three_levels))
  = length (NetZones.nodes NetZones.three_levels).
Proof.
  apply (walk_counts_all_but_root NetZones.example_base_cast NetZones.three_levels).
  intros impl. discriminate.
Defined.

(** ** The help on a catalog *)

Section HelpLines.

Import ModelTable Help.

Lemma model_help_loop (table : table_t) (printed : list string) :
  fold_left
    (fun printed item => printed ++ ["  " +:+ name item +:+ ": " +:+ description item])
    table printed
  = printed ++ map (fun item => "  " +:+ name item +:+ ": " +:+ description item) table.
Proof.
  revert printed. induction table as [|x t IH]; intros printed; simpl.
  - now rewrite app_nil_r.
  - now rewrite IH, <- app_assoc.
Qed.

(** X20. [model_help] prints a header and then one line for every entry
    of the catalog, and the help is aligned with the selection: the line
    that follows the header by as many lines as the index the lookup of a
    name returns is the line of that name, with the description of the
    selected entry. *)
Theorem help_line_of_selected_model (category : string) (table : table_t)
    (nm : string) (i : Z) :
  Z.of_nat (length table) <= INT_MAX ->
  find_model_description table nm = Ret i ->
  length (model_help category table) = S (length table) /\
  exists entry,
    nth_error table (Z.to_nat i) = Some entry /\
    nth_error (model_help category table) (S (Z.to_nat i))
    = Some ("  " +:+ nm +:+ ": " +:+ description entry).
Proof.
  intros Hfit Hret. unfold model_help. rewrite model_help_loop.
  split; [simpl; now rewrite length_map|].
  apply find_model_description_ret in Hret as [Hlt ->]; [|assumption].
  destruct (find_if_first _ _ Hlt) as (entry & Hnth & Hname & _).
  apply String.eqb_eq in Hname. rewrite Nat2Z.id.
  exists entry. split; [exact Hnth|].
  cbn [app nth_error]. rewrite nth_error_map, Hnth. simpl. now rewrite Hname.
Qed.

End HelpLines.

Lemma help_line_of_selected_model_witness :
  length (Help.model_help "host" ModelTable.surf_host_model_description) = 4%nat /\
  exists entry,
    nth_error ModelTable.surf_host_model_description (Z.to_nat 2) = Some entry /\
    nth_error (Help.model_help "host" ModelTable.surf_host_model_description)
      (S (Z.to_nat 2))
    = Some ("  " +:+ "ptask_L07" +:+ ": " +:+ ModelTable.description entry).
Proof.
  apply (help_line_of_selected_model "host" ModelTable.surf_host_model_description
           "ptask_L07" 2).
  - vm_compute. discriminate.
  - reflexivity.
Defined.

(** ** The command line built by the Python module *)

Section Argv.

Import PythonArgv.

Lemma store_arg_cells (args : list string) (argv : list cell) (k : nat) :
  length (store_arg args argv k) = length argv /\
  ((k < length argv)%nat -> store_arg args argv k !! k = Some (Some (arg_ptr args k))) /\
  (forall i, i <> k -> store_arg args argv k !! i = argv !! i).
Proof.
  unfold store_arg. split; [apply length_insert|]. split.
  - apply list_lookup_insert_eq.
  - intros i Hi. apply list_lookup_insert_ne. congruence.
Qed.

(** The loop over the first [k] arguments writes the cells below [k] and
    leaves the others. *)
Lemma store_args_loop (args : list string) (k : nat) (argv : list cell) :
  (k <= length argv)%nat ->
  length (fold_left (store_arg args) (seq 0 k) argv) = length argv /\
  (forall i, (i < k)%nat ->
     fold_left (store_arg args) (seq 0 k) argv !! i = Some (Some (arg_ptr args i))) /\
  (forall i, (k <= i)%nat ->
     fold_left (store_arg args) (seq 0 k) argv !! i = argv !! i).
Proof.
  induction k as [|k IH]; intros Hk.
  - simpl. split; [reflexivity|]. split; [intros i Hi; lia | reflexivity].
  - destruct IH as (Hlen & Hlow & Hhigh); [lia|].
    rewrite seq_S, fold_left_app. cbn [fold_left plus].
    destruct (store_arg_cells args (fold_left (store_arg args) (seq 0 k) argv) k)
      as (Hl & Heq & Hne).
    split; [now rewrite Hl|]. split.
    + intros i Hi. destruct (Nat.eq_dec i k) as [-> | Hik].
      * apply Heq. rewrite Hlen. lia.
      * rewrite Hne by assumption. apply Hlow. lia.
    + intros i Hi. rewrite Hne by lia. apply Hhigh. lia.
Qed.

Lemma arg_ptr_designates (args : list string) (i : nat) (arg : string) :
  nth_error args i = Some arg ->
  arg_ptr args i <> nullptr /\ c_string args (arg_ptr args i) = Some arg.
Proof.
  intros Hnth. unfold arg_ptr. rewrite Hnth.
  destruct arg; simpl; (split; [discriminate|]); [reflexivity | exact Hnth].
Qed.

(** X21. The lambda hands the engine a well-formed command line: [argc]
    is the number of arguments, [argv] has one more cell, every cell is
    written, the cell of each argument holds a pointer that is not null and
    designates that argument (the empty ones through [noarg]), in order, and
    the last cell is null. *)
Theorem make_argv_well_formed (args : list string) :
  Z.of_nat (length args) < INT_MAX ->
  fst (make_argv args) = Z.of_nat (length args) /\
  length (snd (make_argv args)) = S (length args) /\
  (forall i arg,
     nth_error args i = Some arg ->
     exists ptr,
       snd (make_argv args) !! i = Some (Some ptr) /\
       ptr <> nullptr /\ c_string args ptr = Some arg) /\
  snd (make_argv args) !! length args = Some (Some nullptr).
Proof.
  intros Hfit. unfold make_argv. cbn [fst snd].
  rewrite to_int_small by (unfold INT_MAX in *; lia).
  replace (Z.to_nat (Z.of_nat (length args) + 1)) with (S (length args)) by lia.
  rewrite Nat2Z.id.
  destruct (store_args_loop args (length args) (replicate (S (length args)) None))
    as (Hlen & Hlow & _).
  { rewrite length_replicate. lia. }
  rewrite length_replicate in Hlen.
  split; [reflexivity|]. split; [now rewrite length_insert|]. split.
  - intros i arg Hnth.
    assert (Hi : (i < length args)%nat) by (apply nth_error_Some; congruence).
    exists (arg_ptr args i). rewrite list_lookup_insert_ne by lia.
    split; [now apply Hlow | now apply arg_ptr_designates].
  - apply list_lookup_insert_eq. unfold lt.
    apply Nat.eq_le_incl. symmetry. exact Hlen.
Qed.

End Argv.

Lemma make_argv_well_formed_witness :
  fst (PythonArgv.make_argv ["sim.py"; ""; "--log=info"]) = 3 /\
  snd (PythonArgv.make_argv ["sim.py"; ""; "--log=info"])
  = [Some (PythonArgv.front_of 0); Some PythonArgv.noarg;
     Some (PythonArgv.front_of 2); Some PythonArgv.nullptr].
Proof.
  split; [|reflexivity].
  apply (make_argv_well_formed ["sim.py"; ""; "--log=info"]). reflexivity.
Defined.

(** ** More on initialization and shutdown *)

Section InitAndExit.

Import Kernel.

Context {X : Type} {E : Externals X}.

(** X22. [surf_init] is idempotent as soon as [xbt_init] counts its call
    in [xbt_initialized] and the collaborators called after it leave that
    counter alone: run from a state whose counter is not negative, it leads
    to a state in which running it again changes neither the state nor the
    arguments. *)
Theorem surf_init_idempotent (args args' : list string) (s : state X) :
  0 <= xbt_initialized s ->
  (forall a t, xbt_initialized t < xbt_initialized (snd (xbt_init a t))) ->
  (forall a t, xbt_initialized (snd (sg_config_init a t)) = xbt_initialized t) ->
  (forall t, xbt_initialized (MC_memory_init t) = xbt_initialized t) ->
  surf_init args' (snd (surf_init args s)) = (args', snd (surf_init args s)).
Proof.
  intros Hs Hxbt Hcfg Hmc.
  apply surf_init_when_initialized. unfold surf_init.
  destruct (Z.ltb_spec 0 (xbt_initialized s)) as [Hpos | Hneg]; [exact Hpos|].
  specialize (Hxbt args s). destruct (xbt_init args s) as [args1 s1].
  specialize (Hcfg args1 s1). destruct (sg_config_init args1 s1) as [args2 s2].
  simpl in *. destruct (MC_is_active s2); simpl; [rewrite Hmc|]; lia.
Qed.



End InitAndExit.

Lemma surf_init_idempotent_witness :
  @Kernel.surf_init nat Kernel.example_externals ["--help"]
    (snd (@Kernel.surf_init nat Kernel.example_externals ["sim"] (Kernel.initial_state O)))
  = (["--help"],
     snd (@Kernel.surf_init nat Kernel.example_externals ["sim"] (Kernel.initial_state O))).
Proof.
  apply (@surf_init_idempotent nat Kernel.example_externals).
  - discriminate.
  - intros a t. simpl. lia.
  - intros a t. reflexivity.
  - intros t. reflexivity.
Defined.


